(** * ocrpickup: the analyze route and the image preparer

    A shallow embedding of the two source files of the repository:

    - the route handler [POST] of the analyze endpoint, which chains a
      Google Cloud Vision text detection and a Dify workflow run and
      answers with one JSON shape;
    - the client page, of which [compressImage] (the canvas resize) and
      [processFile] (the MIME check) carry logic.

    The handler is written in JavaScript over values of type [any], so the
    embedding starts with the JavaScript values that [JSON.parse] produces
    and the few language operations the handler applies to them. *)

From Stdlib Require Import List String Ascii Bool ZArith Lia.
From Stdlib Require Import QArith Qround Qpower Lqa.
From Stdlib Require Import DecimalString.
Import ListNotations.
Open Scope string_scope.
Open Scope Z_scope.
Set Warnings "-register-all".

(** ** Characters used in literals *)

Definition dquote : ascii := "034"%char.
Definition newline : ascii := "010"%char.
Definition comma : ascii := ","%char.

(** ** What the JavaScript engine provides

    Numbers are IEEE doubles and the texts of engine-raised [TypeError]s are
    chosen by the engine, as are the texts of the errors that the platform's
    [Response] constructor throws. None is written in the repository, so
    they are an interface here. *)

Inductive nullish := Undefined | Null.

Inductive type_error :=
| CannotRead (base : nullish) (prop : string)         (* x.prop, x nullish *)
| CannotDestructure (base : nullish) (prop : string)  (* const { prop } = x *)
| NotAFunction (callee : string).                     (* x.f(), x.f no function *)

(** The errors of [new Response(body, { status })]: a [RangeError] for a
    status outside 200 to 599, a [TypeError] for a status that allows no
    body (204, 205, 304) given together with a body. *)
Inductive response_error :=
| StatusOutOfRange (status : Z)
| NullBodyStatus (status : Z).

Class JsEngine := {
  number : Type;
  (** [+0] and [-0] ([NaN] is never produced by [JSON.parse]) *)
  num_falsy : number -> bool;
  (** [n > 0] *)
  num_gt0 : number -> bool;
  (** neither an infinity nor [NaN] *)
  num_is_finite : number -> bool;
  (** [Number::toString] *)
  num_to_string : number -> string;
  (** [StringToNumber(s) > 0] *)
  str_gt0 : string -> bool;
  type_error_message : type_error -> string;
  response_error_message : response_error -> string
}.

Section Values.
Context {E : JsEngine}.

(** ** JavaScript values

    The values reachable from [JSON.parse], and [undefined]. An object is
    the list of its own properties in enumeration order. *)

Inductive value :=
| VUndefined
| VNull
| VBool (b : bool)
| VNum (n : number)
| VStr (s : string)
| VArr (elems : list value)
| VObj (props : list (string * value)).

(** ToBoolean. *)
Definition truthy (v : value) : bool :=
  match v with
  | VUndefined | VNull => false
  | VBool b => b
  | VNum n => negb (num_falsy n)
  | VStr s => negb (s =? "")%string
  | VArr _ | VObj _ => true
  end.

Definition is_nullish (v : value) : bool :=
  match v with
  | VUndefined | VNull => true
  | _ => false
  end.

(** [a || b] *)
Definition js_or (a b : value) : value := if truthy a then a else b.

(** ** Errors *)

Inductive js_error :=
| TypeError (t : type_error)
| ResponseError (r : response_error)
| Rejected (message : string).
(* [Rejected]: a promise of the platform rejected: req.json, fetch, text, json *)

Definition error_message (e : js_error) : string :=
  match e with
  | TypeError t => type_error_message t
  | ResponseError r => response_error_message r
  | Rejected m => m
  end.

Definition result (A : Type) : Type := js_error + A.

(** ** Property access *)

Fixpoint lookup (k : string) (props : list (string * value)) : value :=
  match props with
  | [] => VUndefined
  | (k', v) :: rest => if (k =? k')%string then v else lookup k rest
  end.

(** [v.k] for a property name [k] that no built-in prototype defines and
    that is neither [length] nor an index: the names the handler reads
    ([image], [prompt], [responses], [textAnnotations], [description],
    [data], [outputs], [result]). *)
Definition member (v : value) (k : string) : result value :=
  match v with
  | VUndefined => inl (TypeError (CannotRead Undefined k))
  | VNull => inl (TypeError (CannotRead Null k))
  | VObj props => inr (lookup k props)
  | _ => inr VUndefined
  end.

(** [v?.k] after [v] has been evaluated. *)
Definition opt_member (v : value) (k : string) : value :=
  match v with
  | VObj props => lookup k props
  | _ => VUndefined
  end.

(** [v[0]]. On a string this is its first code unit as a string; the
    handler only ever reads a property of that, so the first byte stands
    for it. *)
Definition index0 (v : value) : result value :=
  match v with
  | VUndefined => inl (TypeError (CannotRead Undefined "0"))
  | VNull => inl (TypeError (CannotRead Null "0"))
  | VArr [] => inr VUndefined
  | VArr (x :: _) => inr x
  | VStr EmptyString => inr VUndefined
  | VStr (String c _) => inr (VStr (String c EmptyString))
  | VObj props => inr (lookup "0" props)
  | _ => inr VUndefined
  end.

(** ** ToString and the relational comparison with zero *)

Definition join (sep : string) (l : list string) : string :=
  match l with
  | [] => ""
  | x :: rest => fold_left (fun acc y => acc ++ sep ++ y) rest x
  end.

Fixpoint to_string (v : value) : string :=
  match v with
  | VUndefined => "undefined"
  | VNull => "null"
  | VBool true => "true"
  | VBool false => "false"
  | VNum n => num_to_string n
  | VStr s => s
  | VArr elems =>
      join "," (map (fun x => if is_nullish x then "" else to_string x) elems)
  | VObj _ => "[object Object]"
  end.

(** [v > 0]: [v] is converted with ToPrimitive (hint number), then with
    ToNumber. *)
Definition gt0 (v : value) : bool :=
  match v with
  | VUndefined => false           (* NaN *)
  | VNull => false                (* +0 *)
  | VBool b => b
  | VNum n => num_gt0 n
  | VStr s => str_gt0 s
  | VArr _ => str_gt0 (to_string v)
  | VObj _ => false               (* "[object Object]" is NaN *)
  end.

(** [v.length > 0], for a [v] that is not nullish (on a nullish [v] the
    read of [length] throws). *)
Definition length_gt0 (v : value) : result bool :=
  match v with
  | VUndefined => inl (TypeError (CannotRead Undefined "length"))
  | VNull => inl (TypeError (CannotRead Null "length"))
  | VArr elems => inr (negb (Nat.eqb (List.length elems) 0))
  | VStr s => inr (negb (Nat.eqb (String.length s) 0))
  | VObj props => inr (gt0 (lookup "length" props))
  | _ => inr false
  end.

(** ** [String.prototype.split] with a one-character separator *)

Fixpoint split (sep : ascii) (s : string) : list string :=
  match s with
  | EmptyString => [EmptyString]
  | String c rest =>
      if Ascii.eqb c sep then EmptyString :: split sep rest
      else match split sep rest with
           | piece :: pieces => String c piece :: pieces
           | [] => [String c EmptyString]
           end
  end.

(** [image.split(',')[1]] *)
Definition split_comma_1 (image : value) : result value :=
  match image with
  | VStr s =>
      inr (match nth_error (split comma s) 1 with
           | Some piece => VStr piece
           | None => VUndefined
           end)
  | VUndefined => inl (TypeError (CannotRead Undefined "split"))
  | VNull => inl (TypeError (CannotRead Null "split"))
  | _ => inl (TypeError (NotAFunction "image.split"))
  end.

(** ** [JSON.stringify]

    QuoteJSONString on a string held as UTF-8 bytes: bytes from 0x80 up
    pass through unchanged. *)

Definition hex_digit (n : nat) : ascii :=
  nth n ["0"; "1"; "2"; "3"; "4"; "5"; "6"; "7"; "8"; "9";
         "a"; "b"; "c"; "d"; "e"; "f"]%char "0"%char.

Definition quote_code_unit (c : ascii) : string :=
  let n := nat_of_ascii c in
  if Nat.eqb n 8 then "\b"
  else if Nat.eqb n 9 then "\t"
  else if Nat.eqb n 10 then "\n"
  else if Nat.eqb n 12 then "\f"
  else if Nat.eqb n 13 then "\r"
  else if Nat.eqb n 34 then String "\"%char (String dquote EmptyString)
  else if Nat.eqb n 92 then String "\"%char (String "\"%char EmptyString)
  else if Nat.ltb n 32 then
    "\u00" ++ String (hex_digit (Nat.div n 16))
                     (String (hex_digit (Nat.modulo n 16)) EmptyString)
  else String c EmptyString.

Fixpoint quote_body (s : string) : string :=
  match s with
  | EmptyString => EmptyString
  | String c rest => quote_code_unit c ++ quote_body rest
  end.

Definition quote (s : string) : string :=
  String dquote (quote_body s ++ String dquote EmptyString).

(** The brackets around the serialized members of an object or array. *)
Definition wrap (opening closing gap indent : string) (partial : list string)
  : string :=
  match partial with
  | [] => opening ++ closing
  | _ =>
      if (gap =? "")%string then opening ++ join "," partial ++ closing
      else
        let inner := indent ++ gap in
        opening ++ String newline inner
          ++ join (String comma (String newline inner)) partial
          ++ String newline indent ++ closing
  end.

(** SerializeJSONProperty without replacer; [None] is [undefined]. *)
Fixpoint serialize (gap indent : string) (v : value) : option string :=
  match v with
  | VUndefined => None
  | VNull => Some "null"
  | VBool true => Some "true"
  | VBool false => Some "false"
  | VNum n => Some (if num_is_finite n then num_to_string n else "null")
  | VStr s => Some (quote s)
  | VArr elems =>
      let inner := indent ++ gap in
      Some (wrap "[" "]" gap indent
              (map (fun x => match serialize gap inner x with
                             | Some s => s
                             | None => "null"
                             end) elems))
  | VObj props =>
      let inner := indent ++ gap in
      Some (wrap "{" "}" gap indent
              ((fix members (ps : list (string * value)) : list string :=
                  match ps with
                  | [] => []
                  | (k, x) :: rest =>
                      match serialize gap inner x with
                      | Some s =>
                          (quote k ++ ":"
                             ++ (if (gap =? "")%string then "" else " ") ++ s)
                            :: members rest
                      | None => members rest
                      end
                  end) props))
  end.

(** [JSON.stringify(v)] *)
Definition JSON_stringify (v : value) : option string := serialize "" "" v.

(** [JSON.stringify(v, null, 2)] *)
Definition JSON_stringify_2 (v : value) : option string := serialize "  " "" v.

Definition of_option_string (o : option string) : value :=
  match o with
  | Some s => VStr s
  | None => VUndefined
  end.

End Values.

(** ** The handler's surroundings

    What the handler observes and does: the inbound request, the process
    environment, the two outbound [fetch] calls and the console. *)

Section Route.
Context {E : JsEngine}.

Record fetch_request := {
  url : string;
  method : string;
  headers : list (string * string);
  body : option string
}.

(** A fetched response: its status line, and what [text()] and [json()]
    resolve or reject with. *)
Record fetch_response := {
  res_status : Z;
  res_text : result string;
  res_json : result value
}.

(** [Response.ok]: the status is in the range 200 to 299. *)
Definition ok (r : fetch_response) : bool :=
  (200 <=? res_status r) && (res_status r <=? 299).

Record process_env := {
  DIFY_API_KEY : option string;
  DIFY_API_URL : option string;
  GOOGLE_VISION_API_KEY : option string
}.

Record host := {
  env : process_env;
  fetch : fetch_request -> result fetch_response
}.

(** [req.json()] resolves with the parsed body or rejects. *)
Record NextRequest := { req_json : result value }.

Inductive console_arg :=
| AStr (s : string)
| ABool (b : bool)
| AErr (e : js_error).

Inductive event :=
| ConsoleLog (args : list console_arg)
| ConsoleError (args : list console_arg)
| Fetch (rq : fetch_request).

(** A response of the handler: its status and the value it was given as
    body. *)
Record NextResponse := {
  status : Z;
  json_body : value
}.

(** The response that [NextResponse.json(body, { status })] returns when
    it returns one. *)
Definition NextResponse_json (b : value) (s : Z) : NextResponse :=
  {| status := s; json_body := b |}.

(** A status that a response may not carry together with a body. *)
Definition forbids_body (s : Z) : bool :=
  (s =? 101) || (s =? 103) || (s =? 204) || (s =? 205) || (s =? 304).

(** The error with which the [Response] constructor refuses a status, the
    body being present: the range is checked first. *)
Definition refused_status (s : Z) : option response_error :=
  if (s <? 200) || (599 <? s) then Some (StatusOutOfRange s)
  else if forbids_body s then Some (NullBodyStatus s)
  else None.

(** The call [NextResponse.json(body, { status })]: it builds the response
    with the platform's [Response] constructor, which throws on a status
    it refuses. The handler makes every such call inside its [try]. *)
Definition call_NextResponse_json (b : value) (s : Z) : result NextResponse :=
  match refused_status s with
  | Some r => inl (ResponseError r)
  | None => inr (NextResponse_json b s)
  end.

(** ** Effects: a trace of events and a possible exception *)

Definition M (A : Type) : Type := (list event * result A)%type.

Definition ret {A} (a : A) : M A := ([], inr a).

Definition lift {A} (r : result A) : M A := ([], r).

Definition emit (e : event) : M unit := ([e], inr tt).

Definition bind {A B} (m : M A) (k : A -> M B) : M B :=
  match m with
  | (t, inl e) => (t, inl e)
  | (t, inr a) => let (t', r) := k a in ((t ++ t')%list, r)
  end.

(** [try { m } catch (error) { h error }], for a handler that cannot throw. *)
Definition try_catch {A} (m : M A) (h : js_error -> list event * A)
  : list event * A :=
  match m with
  | (t, inr a) => (t, a)
  | (t, inl e) => let (t', a) := h e in ((t ++ t')%list, a)
  end.

Notation "x <- m ;; k" := (bind m (fun x => k))
  (at level 100, m at next level, right associativity).
Notation "m ;;; k" := (bind m (fun _ => k))
  (at level 100, right associativity).

Definition await_fetch (h : host) (rq : fetch_request) : M fetch_response :=
  ([Fetch rq], fetch h rq).

(** ** Literals of the handler *)

Definition default_dify_url : string := "https://api.dify.ai/v1".
Definition default_prompt : string := "抽出してください".

Definition error_body (message : string) : value :=
  VObj [("error", VStr message)].

(** [const { image, prompt } = ...] reads one property of the pattern. *)
Definition destructure (v : value) (k : string) : result value :=
  match v with
  | VUndefined => inl (TypeError (CannotDestructure Undefined k))
  | VNull => inl (TypeError (CannotDestructure Null k))
  | _ => inr (opt_member v k)
  end.

Definition visionPayload (base64Data : value) : value :=
  VObj [("requests",
         VArr [VObj [("image", VObj [("content", base64Data)]);
                     ("features",
                      VArr [VObj [("type", VStr "TEXT_DETECTION")]])]])].

Definition vision_request (googleApiKey base64Data : value) : fetch_request :=
  {| url := "https://vision.googleapis.com/v1/images:annotate?key="
              ++ to_string googleApiKey;
     method := "POST";
     headers := [("Content-Type", "application/json")];
     body := JSON_stringify (visionPayload base64Data) |}.

Definition workflowPayload (ocrText prompt : value) : value :=
  VObj [("inputs",
         VObj [("ocr_text", ocrText);
               ("user_prompt", js_or prompt (VStr default_prompt))]);
        ("response_mode", VStr "blocking");
        ("user", VStr "image-extractor-user")].

Definition workflow_request (difyApiUrl difyApiKey ocrText prompt : value)
  : fetch_request :=
  {| url := to_string difyApiUrl ++ "/workflows/run";
     method := "POST";
     headers := [("Authorization", "Bearer " ++ to_string difyApiKey);
                 ("Content-Type", "application/json")];
     body := JSON_stringify (workflowPayload ocrText prompt) |}.

(** [visionData.responses[0]?.textAnnotations] *)
Definition detections_of (visionData : value) : result value :=
  match member visionData "responses" with
  | inl e => inl e
  | inr responses =>
      match index0 responses with
      | inl e => inl e
      | inr first => inr (opt_member first "textAnnotations")
      end
  end.

(** [detections && detections.length > 0 ? detections[0].description : ''] *)
Definition ocrText_of (detections : value) : result value :=
  match (if truthy detections then length_gt0 detections else inr false) with
  | inl e => inl e
  | inr true =>
      match index0 detections with
      | inl e => inl e
      | inr first => member first "description"
      end
  | inr false => inr (VStr "")
  end.

(** [workflowData.data?.outputs] *)
Definition outputs_of (workflowData : value) : result value :=
  match member workflowData "data" with
  | inl e => inl e
  | inr data => inr (opt_member data "outputs")
  end.

(** [workflowData.data?.outputs?.result
     || JSON.stringify(workflowData.data?.outputs, null, 2)] *)
Definition resultText_of (workflowData : value) : result value :=
  match outputs_of workflowData with
  | inl e => inl e
  | inr outputs =>
      inr (js_or (opt_member outputs "result")
                 (of_option_string (JSON_stringify_2 outputs)))
  end.

(** ** The route handler *)

Definition POST_body (h : host) (req : NextRequest) : M NextResponse :=
  parsed <- lift (req_json req) ;;
  image <- lift (destructure parsed "image") ;;
  prompt <- lift (destructure parsed "prompt") ;;
  if negb (truthy image) then
    lift (call_NextResponse_json (error_body "Image is required") 400)
  else
    let difyApiKey := of_option_string (DIFY_API_KEY (env h)) in
    let difyApiUrl :=
      js_or (of_option_string (DIFY_API_URL (env h))) (VStr default_dify_url) in
    let googleApiKey := of_option_string (GOOGLE_VISION_API_KEY (env h)) in
    emit (ConsoleLog [AStr "API Request received"]) ;;;
    emit (ConsoleLog [AStr "Dify Key configured:";
                      ABool (truthy difyApiKey)]) ;;;
    emit (ConsoleLog [AStr "Google Key configured:";
                      ABool (truthy googleApiKey)]) ;;;
    if negb (truthy difyApiKey) then
      emit (ConsoleError [AStr "Missing Dify API Key"]) ;;;
      lift (call_NextResponse_json
              (error_body "Dify API Key is not configured") 500)
    else if negb (truthy googleApiKey) then
      emit (ConsoleError [AStr "Missing Google Vision API Key"]) ;;;
      lift (call_NextResponse_json
              (error_body "Google Vision API Key is not configured") 500)
    else
      base64Data <- lift (split_comma_1 image) ;;
      visionRes <- await_fetch h (vision_request googleApiKey base64Data) ;;
      if negb (ok visionRes) then
        errorText <- lift (res_text visionRes) ;;
        emit (ConsoleError [AStr "Vision API failed:"; AStr errorText]) ;;;
        lift (call_NextResponse_json
                (error_body ("Vision API Error: " ++ errorText))
                (res_status visionRes))
      else
        visionData <- lift (res_json visionRes) ;;
        detections <- lift (detections_of visionData) ;;
        ocrText <- lift (ocrText_of detections) ;;
        if negb (truthy ocrText) then
          lift (call_NextResponse_json
                  (error_body "No text detected in the image.") 400)
        else
          workflowRes <-
            await_fetch h
              (workflow_request difyApiUrl difyApiKey ocrText prompt) ;;
          if negb (ok workflowRes) then
            errorText <- lift (res_text workflowRes) ;;
            emit (ConsoleError [AStr "Workflow failed:"; AStr errorText]) ;;;
            lift (call_NextResponse_json
                    (error_body ("Analysis failed: " ++ errorText))
                    (res_status workflowRes))
          else
            workflowData <- lift (res_json workflowRes) ;;
            resultText <- lift (resultText_of workflowData) ;;
            lift (call_NextResponse_json (VObj [("answer", resultText)]) 200).

(** The [catch] block. Its own [NextResponse.json] is called with the
    status 500, which the constructor accepts. *)
Definition POST_catch (error : js_error) : list event * NextResponse :=
  ([ConsoleError [AStr "Error:"; AErr error]],
   NextResponse_json
     (error_body ("Internal Server Error: " ++ error_message error)) 500).

Definition POST (h : host) (req : NextRequest) : list event * NextResponse :=
  try_catch (POST_body h req) POST_catch.

End Route.

(** ** A small engine to run the handler on examples

    Numbers are the integers, printed in decimal; StringToNumber reads
    plain decimal integer literals and takes every other string for [NaN].
    The error texts are V8's and, for the [Response] constructor, Node's. *)

Definition squote (s : string) : string := "'" ++ s ++ "'".

Definition nullish_name (n : nullish) : string :=
  match n with
  | Undefined => "undefined"
  | Null => "null"
  end.

Definition v8_type_error_message (t : type_error) : string :=
  match t with
  | CannotRead base prop =>
      "Cannot read properties of " ++ nullish_name base
        ++ " (reading " ++ squote prop ++ ")"
  | CannotDestructure base prop =>
      "Cannot destructure property " ++ squote prop
        ++ " of '(intermediate value)' as it is " ++ nullish_name base ++ "."
  | NotAFunction callee => callee ++ " is not a function"
  end.

Definition node_response_error_message (r : response_error) : string :=
  match r with
  | StatusOutOfRange _ =>
      "init[" ++ String dquote ("status" ++ String dquote
        "] must be in the range of 200 to 599, inclusive.")
  | NullBodyStatus s =>
      "Response constructor: Invalid response status code "
        ++ NilEmpty.string_of_int (Z.to_int s)
  end.

#[export] Instance integer_engine : JsEngine := {|
  number := Z;
  num_falsy := fun z => z =? 0;
  num_gt0 := fun z => 0 <? z;
  num_is_finite := fun _ => true;
  num_to_string := fun z => NilEmpty.string_of_int (Z.to_int z);
  str_gt0 := fun s =>
    match NilEmpty.int_of_string s with
    | Some i => 0 <? Z.of_int i
    | None => false
    end;
  type_error_message := v8_type_error_message;
  response_error_message := node_response_error_message
|}.

(** ** The client page: numbers of the canvas resize

    [img.width] and [img.height] are integers, [MAX_WIDTH / width] and
    [height *= ...] are operations on doubles. A double is held as the
    rational it denotes; an operation is the exact operation followed by
    rounding to the nearest double, ties to even. No operation of
    [compressImage] overflows, divides by zero or yields [NaN]. *)

Module Binary64.
Local Open Scope Q_scope.

(** The exponent [e] of a positive [x]: [2^e <= x < 2^(e+1)]. *)
Definition ilog2 (x : Q) : Z :=
  let e := (Z.log2 (Qnum x) - Z.log2 (Zpos (Qden x)))%Z in
  if Qle_bool (2 ^ e) x then e else (e - 1)%Z.

Definition round_half_even (y : Q) : Z :=
  let f := Qfloor y in
  match Qcompare (y - inject_Z f) (1 # 2) with
  | Lt => f
  | Gt => (f + 1)%Z
  | Eq => if Z.even f then f else (f + 1)%Z
  end.

(** The spacing of the doubles around a positive [x]: 53 significant
    bits, and the fixed spacing of the subnormals below [2^-1022]. *)
Definition ulp (x : Q) : Q := 2 ^ (Z.max (ilog2 x) (-1022) - 52).

Definition round_pos (x : Q) : Q :=
  inject_Z (round_half_even (x / ulp x)) * ulp x.

Definition round (x : Q) : Q :=
  match Qcompare 0 x with
  | Eq => 0
  | Lt => round_pos x
  | Gt => - round_pos (- x)
  end.

Definition div (x y : Q) : Q := round (x / y).
Definition mul (x y : Q) : Q := round (x * y).

(** The largest relative error of one rounding, [2^-53]. *)
Definition unit_roundoff : Q := 1 # 9007199254740992.

Definition gt (x y : Q) : bool := negb (Qle_bool x y).

(** IntegerPart: truncation toward zero. *)
Definition integer_part (x : Q) : Z :=
  if Qle_bool 0 x then Qfloor x else Qceiling x.

End Binary64.

(** Setting [canvas.width] or [canvas.height]: the value is converted to
    an [unsigned long] (truncated, then taken modulo 2^32), and a value
    above 2147483647 is replaced by the attribute's default. *)
Definition set_canvas_dimension (default : Z) (x : Q) : Z :=
  let n := Binary64.integer_part x mod 2 ^ 32 in
  if n <=? 2147483647 then n else default.

Definition MAX_WIDTH : Q := 1024.
Definition MAX_HEIGHT : Q := 1024.

(** The body of [img.onload] in [compressImage], from
    [let width = img.width] to the [width] and [height] it draws with. *)
Definition scaled_size (img_width img_height : Z) : Q * Q :=
  let width := inject_Z img_width in
  let height := inject_Z img_height in
  if Binary64.gt width height then
    if Binary64.gt width MAX_WIDTH then
      (MAX_WIDTH, Binary64.mul height (Binary64.div MAX_WIDTH width))
    else (width, height)
  else
    if Binary64.gt height MAX_HEIGHT then
      (Binary64.mul width (Binary64.div MAX_HEIGHT height), MAX_HEIGHT)
    else (width, height).

(** [canvas.width] and [canvas.height] after the two assignments: the size
    of the raster that [toDataURL] encodes. *)
Definition canvas_size (img_width img_height : Z) : Z * Z :=
  let (width, height) := scaled_size img_width img_height in
  (set_canvas_dimension 300 width, set_canvas_dimension 150 height).

(** ** The client page: [compressImage] and [processFile] *)

Module Home.

Record File := {
  type : string;       (* the MIME type *)
  contents : string
}.

Record canvas := {
  width : Z;
  height : Z;
  (** what [drawImage(img, 0, 0, width, height)] drew, if it ran *)
  drawn : option (string * Q * Q)
}.

(** What the browser does for the page. [None] is the [onerror] event. *)
Record browser := {
  readAsDataURL : File -> option string;
  (** [img.onload], with [img.width] and [img.height] *)
  decode : string -> option (Z * Z);
  (** [canvas.getContext('2d')] is not [null] *)
  getContext : Z -> Z -> bool;
  (** [canvas.toDataURL(type, quality)] *)
  toDataURL : canvas -> string -> Q -> string
}.

Inductive rejection := ReaderError | ImageError.

Inductive event :=
| ReadAsDataURL (file : File)
| Decode (src : string)
| DrawImage (src : string) (dw dh : Q)
| ToDataURL (c : canvas) (mime : string) (quality : Q)
| ConsoleError (message : string) (err : rejection).

Definition compressImage (b : browser) (file : File)
  : list event * (rejection + string) :=
  match readAsDataURL b file with
  | None => ([ReadAsDataURL file], inl ReaderError)
  | Some src =>
      match decode b src with
      | None => ([ReadAsDataURL file; Decode src], inl ImageError)
      | Some (img_width, img_height) =>
          let (width, height) := scaled_size img_width img_height in
          let canvas_width := set_canvas_dimension 300 width in
          let canvas_height := set_canvas_dimension 150 height in
          let ctx := getContext b canvas_width canvas_height in
          let c := {| width := canvas_width;
                      height := canvas_height;
                      drawn := if ctx then Some (src, width, height)
                               else None |} in
          (([ReadAsDataURL file; Decode src]
              ++ (if ctx then [DrawImage src width height] else [])
              ++ [ToDataURL c "image/jpeg" (7 # 10)])%list,
           inr (toDataURL b c "image/jpeg" (7 # 10)))
      end
  end.

(** The state of the component. *)
Record state := {
  image : option string;
  loading : bool;
  result : string;
  error : option string;
  copied : bool
}.

Definition setImage (v : option string) (s : state) : state :=
  {| image := v; loading := loading s; result := result s;
     error := error s; copied := copied s |}.

Definition setResult (v : string) (s : state) : state :=
  {| image := image s; loading := loading s; result := v;
     error := error s; copied := copied s |}.

Definition setError (v : option string) (s : state) : state :=
  {| image := image s; loading := loading s; result := result s;
     error := v; copied := copied s |}.

Definition not_an_image_message : string := "画像ファイルを選択してください。".
Definition load_failed_message : string := "画像の読み込みに失敗しました。".

Definition processFile (b : browser) (file : File) (s : state)
  : list event * state :=
  if negb (String.prefix "image/" (type file)) then
    ([], setError (Some not_an_image_message) s)
  else
    match compressImage b file with
    | (t, inr compressedDataUrl) =>
        (t, setResult "" (setError None (setImage (Some compressedDataUrl) s)))
    | (t, inl err) =>
        ((t ++ [ConsoleError "Image processing error:" err])%list,
         setError (Some load_failed_message) s)
    end.

(** The state the component starts in. *)
Definition initial_state : state :=
  {| image := None; loading := false; result := ""; error := None;
     copied := false |}.

(** A browser that reads and decodes every file as a 4032 by 3024 image. *)
Definition sample_browser : browser :=
  {| readAsDataURL := fun file =>
       Some ("data:" ++ type file ++ ";base64," ++ contents file);
     decode := fun _ => Some (4032, 3024);
     getContext := fun _ _ => true;
     toDataURL := fun _ mime _ => "data:" ++ mime ++ ";base64,/9j/" |}.

Definition pdf_file : File :=
  {| type := "application/pdf"; contents := "JVBERi0=" |}.

End Home.

(** ** Vocabulary of the statements about the handler *)

Section RouteVocabulary.
Context {E : JsEngine}.

(** The outbound calls of a trace, in order. *)
Definition fetches (t : list event) : list fetch_request :=
  flat_map (fun e => match e with Fetch rq => [rq] | _ => [] end) t.


(** The request has a JSON body, which is not [null]. *)
Definition has_body (req : NextRequest) (parsed : value) : Prop :=
  req_json req = inr parsed /\ is_nullish parsed = false.

(** Both credentials are set, to [difyApiKey] and [googleApiKey]. *)
Definition configured (h : host) (difyApiKey googleApiKey : string) : Prop :=
  DIFY_API_KEY (env h) = Some difyApiKey /\ difyApiKey <> "" /\
  GOOGLE_VISION_API_KEY (env h) = Some googleApiKey /\ googleApiKey <> "".

(** A credential is absent: unset, or set to the empty string. *)
Definition missing (credential : option string) : Prop :=
  credential = None \/ credential = Some "".

(** [process.env.DIFY_API_URL || 'https://api.dify.ai/v1'] *)
Definition difyApiUrl (h : host) : value :=
  js_or (of_option_string (DIFY_API_URL (env h))) (VStr default_dify_url).

(** The three lines the handler logs once an image is present. *)
Definition request_logs (difyConfigured googleConfigured : bool) : list event :=
  [ConsoleLog [AStr "API Request received"];
   ConsoleLog [AStr "Dify Key configured:"; ABool difyConfigured];
   ConsoleLog [AStr "Google Key configured:"; ABool googleConfigured]].

(** The OCR call of the request is the one the handler makes for the image
    text [image], and the provider answers it with [visionRes]. *)
Definition ocr_call (h : host) (req : NextRequest)
    (difyApiKey googleApiKey : string) (prompt : value)
    (rq : fetch_request) (visionRes : fetch_response) : Prop :=
  exists parsed image base64Data,
    has_body req parsed /\
    opt_member parsed "image" = VStr image /\ image <> "" /\
    opt_member parsed "prompt" = prompt /\
    configured h difyApiKey googleApiKey /\
    split_comma_1 (VStr image) = inr base64Data /\
    rq = vision_request (VStr googleApiKey) base64Data /\
    fetch h rq = inr visionRes.

(** The OCR call succeeded and text [ocrText] was detected. *)
Definition ocr_succeeds (visionRes : fetch_response) (ocrText : value) : Prop :=
  exists visionData detections,
    ok visionRes = true /\
    res_json visionRes = inr visionData /\
    detections_of visionData = inr detections /\
    ocrText_of detections = inr ocrText /\
    truthy ocrText = true.

(** The workflow call that follows, answered with [workflowRes]. *)
Definition workflow_call (h : host) (difyApiKey : string)
    (ocrText prompt : value)
    (rq : fetch_request) (workflowRes : fetch_response) : Prop :=
  rq = workflow_request (difyApiUrl h) (VStr difyApiKey) ocrText prompt /\
  fetch h rq = inr workflowRes.


(** The body of a workflow call whose inputs are [ocr_text] and
    [user_prompt]. *)
Definition workflow_body (ocr_text user_prompt : value) : option string :=
  JSON_stringify
    (VObj [("inputs",
            VObj [("ocr_text", ocr_text); ("user_prompt", user_prompt)]);
           ("response_mode", VStr "blocking");
           ("user", VStr "image-extractor-user")]).

(** The text before the first comma, or all of it. *)
Fixpoint up_to_comma (s : string) : string :=
  match s with
  | EmptyString => EmptyString
  | String c rest =>
      if Ascii.eqb c comma then EmptyString else String c (up_to_comma rest)
  end.

(** The claim "whatever follows the first comma", in the spec's words. *)
Fixpoint after_first_comma (s : string) : option string :=
  match s with
  | EmptyString => None
  | String c rest =>
      if Ascii.eqb c comma then Some rest else after_first_comma rest
  end.

(** A property is present in an object. *)
Fixpoint has_prop (k : string) (props : list (string * value)) : bool :=
  match props with
  | [] => false
  | (k', _) :: rest => (k =? k')%string || has_prop k rest
  end.

Definition present (v : value) (k : string) : bool :=
  match v with
  | VObj props => has_prop k props
  | _ => false
  end.

(** The answer in the spec's words: the [result] field when it is
    present, and otherwise the serialized outputs. *)
Definition answer_by_presence (outputs : value) : value :=
  if present outputs "result" then opt_member outputs "result"
  else of_option_string (JSON_stringify_2 outputs).

(** The instruction in the spec's words: the default when the [prompt]
    field is absent, the supplied prompt otherwise. *)
Definition prompt_by_presence (parsed : value) : value :=
  if present parsed "prompt" then opt_member parsed "prompt"
  else VStr default_prompt.

End RouteVocabulary.

(** ** Sample surroundings for the examples *)

Definition sample_env : process_env :=
  {| DIFY_API_KEY := Some "dify-key";
     DIFY_API_URL := None;
     GOOGLE_VISION_API_KEY := Some "google-key" |}.

(** A host whose OCR provider answers [visionRes] and whose workflow
    provider answers [workflowRes]. *)
Definition sample_host (visionRes workflowRes : fetch_response) : host :=
  {| env := sample_env;
     fetch := fun rq =>
       if String.prefix "https://vision.googleapis.com/" (url rq)
       then inr visionRes else inr workflowRes |}.

(** A response whose body is the JSON text of [j]. *)
Definition json_response (s : Z) (j : value) : fetch_response :=
  {| res_status := s;
     res_text := inr (match JSON_stringify j with Some t => t | None => "" end);
     res_json := inr j |}.

(** A response whose body is a text that is not JSON. *)
Definition text_response (s : Z) (t : string) : fetch_response :=
  {| res_status := s;
     res_text := inr t;
     res_json := inl (Rejected "Unexpected token") |}.

Definition vision_found (text : string) : fetch_response :=
  json_response 200
    (VObj [("responses",
            VArr [VObj [("textAnnotations",
                         VArr [VObj [("description", VStr text)]])]])]).

Definition workflow_outputs (outputs : value) : fetch_response :=
  json_response 200 (VObj [("data", VObj [("outputs", outputs)])]).

Definition request_of (parsed : value) : NextRequest :=
  {| req_json := inr parsed |}.

Definition sample_image : string := "data:image/png;base64,AAAA".

Definition body_with_image : value := VObj [("image", VStr sample_image)].

Definition body_without_image : value := VObj [("prompt", VStr "read this")].

Definition body_with_empty_prompt : value :=
  VObj [("image", VStr sample_image); ("prompt", VStr "")].

Definition body_with_prompt : value :=
  VObj [("image", VStr sample_image); ("prompt", VStr "list the items")].

Definition body_with_commas : value := VObj [("image", VStr "a,b,c")].

(** The same host with the OCR credential unset. *)
Definition host_without_ocr_key (visionRes workflowRes : fetch_response)
  : host :=
  {| env := {| DIFY_API_KEY := Some "dify-key";
               DIFY_API_URL := None;
               GOOGLE_VISION_API_KEY := None |};
     fetch := fetch (sample_host visionRes workflowRes) |}.

Definition unavailable : fetch_response :=
  text_response 503 "service unavailable".

Definition vision_empty : fetch_response :=
  json_response 200
    (VObj [("responses", VArr [VObj [("textAnnotations", VArr [])]])]).

Definition outputs_with_result : value := VObj [("result", VStr "Item: Value")].
Definition outputs_without_result : value := VObj [("foo", VStr "bar")].
Definition outputs_with_empty_result : value := VObj [("result", VStr "")].

(** Text is detected and the workflow answers with [outputs]. *)
Definition host_with_outputs (outputs : value) : host :=
  sample_host (vision_found "Hello World") (workflow_outputs outputs).

Definition host_echo : host := host_with_outputs outputs_with_result.

(** Text is detected and the workflow provider is down. *)
Definition host_unavailable : host :=
  sample_host (vision_found "Hello World") unavailable.



(** The OCR provider answers with the status 600. *)
Definition host_out_of_range : host :=
  sample_host (text_response 600 "unknown") unavailable.

(** No text is detected. *)
Definition host_no_text : host := sample_host vision_empty unavailable.

Definition host_unconfigured : host :=
  host_without_ocr_key vision_empty unavailable.

Definition host_empty_result : host :=
  host_with_outputs outputs_with_empty_result.

Definition request_with_image : NextRequest := request_of body_with_image.

(** The OCR call that the sample hosts receive for [sample_image]. *)
Definition sample_vision_request : fetch_request :=
  vision_request (VStr "google-key") (VStr "AAAA").

(** ** Reasoning on the effects: what holds of the trace and the outcome *)

Section Post.
Context {E : JsEngine}.

(** [Q] holds of the trace and the outcome of [m]. *)
Definition post {A} (m : M A) (Q : list event -> result A -> Prop) : Prop :=
  Q (fst m) (snd m).

End Post.

(** ** Vocabulary of the statements about failures inside the handler *)

Section FailureVocabulary.
Context {E : JsEngine}.

(** The request passes the presence and credential checks and its image
    is a text: [rq] is the OCR call the handler makes for it. *)
Definition ocr_request (h : host) (req : NextRequest)
    (difyApiKey googleApiKey : string) (prompt : value)
    (rq : fetch_request) : Prop :=
  exists parsed image base64Data,
    has_body req parsed /\
    opt_member parsed "image" = VStr image /\ image <> "" /\
    opt_member parsed "prompt" = prompt /\
    configured h difyApiKey googleApiKey /\
    split_comma_1 (VStr image) = inr base64Data /\
    rq = vision_request (VStr googleApiKey) base64Data.

(** The exchange with the OCR provider throws [e]: the call itself
    rejects, or the body of an error answer cannot be read, or the body of
    a success answer is not JSON, has no [responses] to index, or has a
    first annotation that is [null]. *)
Inductive ocr_exchange_throws (h : host) (rq : fetch_request)
  : js_error -> Prop :=
| ocr_fetch_rejects e :
    fetch h rq = inl e -> ocr_exchange_throws h rq e
| ocr_text_rejects visionRes e :
    fetch h rq = inr visionRes -> ok visionRes = false ->
    res_text visionRes = inl e -> ocr_exchange_throws h rq e
| ocr_json_rejects visionRes e :
    fetch h rq = inr visionRes -> ok visionRes = true ->
    res_json visionRes = inl e -> ocr_exchange_throws h rq e
| ocr_responses_unreadable visionRes visionData e :
    fetch h rq = inr visionRes -> ok visionRes = true ->
    res_json visionRes = inr visionData ->
    detections_of visionData = inl e -> ocr_exchange_throws h rq e
| ocr_annotation_unreadable visionRes visionData detections e :
    fetch h rq = inr visionRes -> ok visionRes = true ->
    res_json visionRes = inr visionData ->
    detections_of visionData = inr detections ->
    ocrText_of detections = inl e -> ocr_exchange_throws h rq e.

(** The exchange with the workflow provider throws [e]. *)
Inductive workflow_exchange_throws (h : host) (rq : fetch_request)
  : js_error -> Prop :=
| workflow_fetch_rejects e :
    fetch h rq = inl e -> workflow_exchange_throws h rq e
| workflow_text_rejects workflowRes e :
    fetch h rq = inr workflowRes -> ok workflowRes = false ->
    res_text workflowRes = inl e -> workflow_exchange_throws h rq e
| workflow_json_rejects workflowRes e :
    fetch h rq = inr workflowRes -> ok workflowRes = true ->
    res_json workflowRes = inl e -> workflow_exchange_throws h rq e
| workflow_data_unreadable workflowRes workflowData e :
    fetch h rq = inr workflowRes -> ok workflowRes = true ->
    res_json workflowRes = inr workflowData ->
    resultText_of workflowData = inl e -> workflow_exchange_throws h rq e.

(** The answer of the handler to an exception [e]. *)
Definition internal_server_error (e : js_error) : NextResponse :=
  NextResponse_json
    (error_body ("Internal Server Error: " ++ error_message e)) 500.

Definition is_string (v : value) : bool :=
  match v with
  | VStr _ => true
  | _ => false
  end.

Definition is_number (v : value) : bool :=
  match v with
  | VNum _ => true
  | _ => false
  end.

End FailureVocabulary.

(** A host whose network is down: every call rejects. *)
Definition host_offline : host :=
  {| env := sample_env;
     fetch := fun _ => inl (Rejected "fetch failed") |}.

(** A host whose workflow base URL is set. *)
Definition host_with_url (base : string) : host :=
  {| env := {| DIFY_API_KEY := Some "dify-key";
               DIFY_API_URL := Some base;
               GOOGLE_VISION_API_KEY := Some "google-key" |};
     fetch := fetch host_echo |}.

Definition body_with_number_image : value :=
  VObj [("image", VNum (42 : @number integer_engine))].

(** ** The client page: [handleAnalyze]

    The handler of the button posts the prepared image to the route and
    turns the answer into calls of the state setters. What it does is
    the list of those calls, in order. *)

Section Analyze.
Context {E : JsEngine}.

(** The response to the page's call, with the header the page reads. *)
Record analyze_response := {
  response : fetch_response;
  (** [response.headers.get("content-type")], [None] for [null] *)
  content_type : option string
}.

(** What the browser does for [handleAnalyze]. *)
Record page_host := {
  fetch_analyze : fetch_request -> result analyze_response;
  (** [text.slice(0, 100)]: the first 100 UTF-16 code units of a text.
      Strings are held as UTF-8 bytes here, so the cut is the platform's. *)
  slice_0_100 : string -> string
}.

Inductive action :=
| SetLoading (b : bool)
| SetError (e : option string)
| SetResult (v : value)
| FetchAnalyze (rq : fetch_request)
| LogAnalysisError (err : js_error).
(* [LogAnalysisError]: console.error("Analysis Error:", err) *)

Definition analyze_prompt : string :=
  "この画像から文字情報を抽出し、構造化されたリスト形式で出力してください。項目名と値が明確になるようにしてください。".

Definition analysis_failed_message : string := "解析に失敗しました".
Definition unexpected_error_message : string := "予期せぬエラーが発生しました".

(** [new Error(message)]: the page reads nothing but the message of it. *)
Definition new_Error (message : string) : js_error := Rejected message.

Definition analyze_request (image : string) : fetch_request :=
  {| url := "/api/analyze";
     method := "POST";
     headers := [("Content-Type", "application/json")];
     body := JSON_stringify
               (VObj [("image", VStr image);
                      ("prompt", VStr analyze_prompt)]) |}.

(** [hay.indexOf(needle) !== -1] *)
Fixpoint includes (needle hay : string) : bool :=
  String.prefix needle hay
  || match hay with
     | EmptyString => false
     | String _ rest => includes needle rest
     end.

(** [contentType && contentType.indexOf("application/json") !== -1] *)
Definition is_json (contentType : option string) : bool :=
  match contentType with
  | None => false
  | Some t => negb (t =? "")%string && includes "application/json" t
  end.

(** The [data] of the response, or the exception of the non-JSON branch. *)
Definition response_data (p : page_host) (res : analyze_response)
  : result value :=
  if is_json (content_type res) then res_json (response res)
  else
    match res_text (response res) with
    | inl e => inl e
    | inr text =>
        inl (new_Error ("Server returned non-JSON response: "
                          ++ slice_0_100 p text ++ "..."))
    end.

(** The [try] block: the call made, and the value handed to [setResult]
    or the exception thrown. *)
Definition handleAnalyze_try (p : page_host) (image : string)
  : list action * result value :=
  let rq := analyze_request image in
  ([FetchAnalyze rq],
   match fetch_analyze p rq with
   | inl e => inl e
   | inr res =>
       match response_data p res with
       | inl e => inl e
       | inr data =>
           if negb (ok (response res)) then
             match member data "error" with
             | inl e => inl e
             | inr err =>
                 inl (new_Error
                        (to_string (js_or err (VStr analysis_failed_message))))
             end
           else
             match member data "answer" with
             | inl e => inl e
             | inr answer =>
                 inr (js_or answer (of_option_string (JSON_stringify_2 data)))
             end
       end
   end).

(** [err.message || '予期せぬエラーが発生しました'] *)
Definition shown_message (err : js_error) : string :=
  if (error_message err =? "")%string then unexpected_error_message
  else error_message err.

Definition handleAnalyze (p : page_host) (image : option string)
  : list action :=
  match image with
  | None => []
  | Some image =>
      if (image =? "")%string then []
      else
        ([SetLoading true; SetError None; SetResult (VStr "")]
           ++ (let (t, outcome) := handleAnalyze_try p image in
               t ++ match outcome with
                    | inr shown => [SetResult shown]
                    | inl err =>
                        [LogAnalysisError err;
                         SetError (Some (shown_message err))]
                    end)
           ++ [SetLoading false])%list
  end.

(** The page's call as the route receives it. *)
Definition page_request (image : string) : NextRequest :=
  {| req_json := inr (VObj [("image", VStr image);
                            ("prompt", VStr analyze_prompt)]) |}.

(** The response [r] of the route is what the page's call is answered
    with: same status, JSON content type, and the body that was sent. *)
Definition delivers (res : analyze_response) (r : NextResponse) : Prop :=
  res_status (response res) = status r /\
  is_json (content_type res) = true /\
  res_json (response res) = inr (json_body r).

End Analyze.

(** ** More sample surroundings *)

(** A request whose body is not JSON. *)
Definition unparsable_request : NextRequest :=
  {| req_json := inl (Rejected "Unexpected end of JSON input") |}.

(** Text is detected and the call to the workflow provider rejects. *)
Definition host_workflow_down : host :=
  {| env := sample_env;
     fetch := fun rq =>
       if String.prefix "https://vision.googleapis.com/" (url rq)
       then inr (vision_found "Hello World")
       else inl (Rejected "fetch failed") |}.

(** The workflow data carry [outputs: null]. *)
Definition host_null_outputs : host := host_with_outputs VNull.

(** The page's call answered with the response [r] of the route. *)
Definition route_answer (r : NextResponse) : analyze_response :=
  {| response := json_response (status r) (json_body r);
     content_type := Some "application/json; charset=utf-8" |}.

(** The page's call answered by a gateway, with an HTML page. *)
Definition gateway_answer : analyze_response :=
  {| response := text_response 502 "<html>Bad Gateway</html>";
     content_type := Some "text/html" |}.

(** A browser whose call is answered with [res]; on the sample texts,
    which are ASCII, the first 100 code units are the first 100 bytes. *)
Definition sample_page_host (res : analyze_response) : page_host :=
  {| fetch_analyze := fun _ => inr res;
     slice_0_100 := fun text => String.substring 0 100 text |}.

(** The route's answer to the page's request for [sample_image] when no
    text is detected. *)
Definition no_text_answer : analyze_response :=
  route_answer (snd (POST host_no_text (page_request sample_image))).

Definition png_file : Home.File :=
  {| Home.type := "image/png"; Home.contents := "iVBORw0KGgo=" |}.

(** A browser that reads every file and decodes none. *)
Definition browser_without_decoder : Home.browser :=
  {| Home.readAsDataURL := Home.readAsDataURL Home.sample_browser;
     Home.decode := fun _ => None;
     Home.getContext := fun _ _ => true;
     Home.toDataURL := Home.toDataURL Home.sample_browser |}.

(** * Properties of the route handler *)

Section RouteProperties.
Context {E : JsEngine}.

(** ** Running the effects *)

Lemma bind_lift_inr {A B} (a : A) (k : A -> M B) : bind (lift (inr a)) k = k a.
Proof. unfold bind, lift. destruct (k a); reflexivity. Qed.

Lemma bind_lift_inl {A B} (e : js_error) (k : A -> M B) :
  bind (lift (inl e)) k = ([], inl e).
Proof. reflexivity. Qed.

Lemma bind_ret {A B} (a : A) (k : A -> M B) : bind (ret a) k = k a.
Proof. exact (bind_lift_inr a k). Qed.

Lemma bind_emit {B} (ev : event) (k : unit -> M B) :
  bind (emit ev) k = (ev :: fst (k tt), snd (k tt)).
Proof. unfold bind, emit. destruct (k tt); reflexivity. Qed.

Lemma bind_await_fetch {B} (h : host) (rq : fetch_request)
    (res : fetch_response) (k : fetch_response -> M B) :
  fetch h rq = inr res ->
  bind (await_fetch h rq) k = (Fetch rq :: fst (k res), snd (k res)).
Proof.
  intros Hf. unfold bind, await_fetch. rewrite Hf.
  destruct (k res); reflexivity.
Qed.

Lemma destructure_body (parsed : value) (k : string) :
  is_nullish parsed = false -> destructure parsed k = inr (opt_member parsed k).
Proof. destruct parsed; simpl; intros H; try discriminate H; reflexivity. Qed.

Lemma truthy_VStr (s : string) : s <> "" -> truthy (VStr s) = true.
Proof.
  intros Hs. simpl.
  destruct (String.eqb_spec s ""); [contradiction | reflexivity].
Qed.

Ltac run_step :=
  first
    [ rewrite bind_lift_inr
    | rewrite bind_lift_inl
    | rewrite bind_ret
    | rewrite bind_emit
    | rewrite destructure_body by assumption
    | progress cbv beta
    | progress cbn [fst snd negb try_catch app] ].

Lemma POST_without_image (h : host) (req : NextRequest) (parsed : value) :
  has_body req parsed ->
  truthy (opt_member parsed "image") = false ->
  POST h req = ([], NextResponse_json (error_body "Image is required") 400).
Proof.
  intros [Hreq Hbody] Himage.
  unfold POST, POST_body. rewrite Hreq.
  repeat run_step. rewrite Himage. reflexivity.
Qed.

(** C5: a request whose JSON body carries no image (or a falsy one) is
    answered with status 400 and the message "Image is required", whatever
    the configuration and the providers are, and nothing is logged or
    fetched before that. *)
Theorem image_required (h : host) (req : NextRequest) (parsed : value) :
  has_body req parsed ->
  truthy (opt_member parsed "image") = false ->
  POST h req = ([], NextResponse_json (error_body "Image is required") 400).
Proof. exact (POST_without_image h req parsed). Qed.

Lemma truthy_missing (credential : option string) :
  missing credential -> truthy (of_option_string credential) = false.
Proof. intros [-> | ->]; reflexivity. Qed.

(** C3: when a request carries an image and either credential is absent
    (unset or empty), the handler answers with status 500 and a message
    that names the missing key as not configured, and makes no outbound
    call. *)
Theorem not_configured (h : host) (req : NextRequest) (parsed : value) :
  has_body req parsed ->
  truthy (opt_member parsed "image") = true ->
  missing (DIFY_API_KEY (env h)) \/ missing (GOOGLE_VISION_API_KEY (env h)) ->
  status (snd (POST h req)) = 500 /\
  (json_body (snd (POST h req)) = error_body "Dify API Key is not configured" \/
   json_body (snd (POST h req))
     = error_body "Google Vision API Key is not configured") /\
  fetches (fst (POST h req)) = [].
Proof.
  intros [Hreq Hbody] Himage Hkeys.
  unfold POST, POST_body. rewrite Hreq.
  repeat run_step. rewrite Himage. repeat run_step.
  destruct (truthy (of_option_string (DIFY_API_KEY (env h)))) eqn:Hdify.
  - destruct Hkeys as [Hk | Hk]; apply truthy_missing in Hk;
      [rewrite Hk in Hdify; discriminate Hdify |].
    rewrite Hk. repeat run_step. simpl. auto.
  - repeat run_step. simpl. auto.
Qed.

(** ** The trace up to an outbound call *)

Lemma fst_bind_await_fetch {B} (h : host) (rq : fetch_request)
    (k : fetch_response -> M B) :
  exists rest, fst (bind (await_fetch h rq) k) = Fetch rq :: rest.
Proof.
  unfold bind, await_fetch. destruct (fetch h rq) as [e | res].
  - now exists [].
  - destruct (k res) as [t r]. now exists t.
Qed.

(** The handler up to the OCR call. *)
Ltac enter_ocr Hcall :=
  let parsed := fresh "parsed" in
  let image := fresh "image" in
  let base64Data := fresh "base64Data" in
  let Hreq := fresh "Hreq" in
  let Hbody := fresh "Hbody" in
  let Himage := fresh "Himage" in
  let Hne := fresh "Hne" in
  let Hprompt := fresh "Hprompt" in
  let Hdk := fresh "Hdk" in
  let Hdne := fresh "Hdne" in
  let Hgk := fresh "Hgk" in
  let Hgne := fresh "Hgne" in
  let Hsplit := fresh "Hsplit" in
  let Hfetch := fresh "Hfetch" in
  destruct Hcall as (parsed & image & base64Data & [Hreq Hbody] & Himage & Hne
                     & Hprompt & (Hdk & Hdne & Hgk & Hgne) & Hsplit & ->
                     & Hfetch);
  unfold POST, POST_body; rewrite Hreq;
  repeat run_step; rewrite Himage, Hprompt;
  rewrite (truthy_VStr _ Hne); repeat run_step;
  rewrite Hdk, Hgk; cbn [of_option_string];
  rewrite !(truthy_VStr _ Hdne), !(truthy_VStr _ Hgne); repeat run_step;
  rewrite Hsplit; repeat run_step.

(** The handler after a successful OCR call that detected text. *)
Ltac enter_workflow Hocr :=
  let visionData := fresh "visionData" in
  let detections := fresh "detections" in
  let Hok := fresh "Hok" in
  let Hjson := fresh "Hjson" in
  let Hdet := fresh "Hdet" in
  let Htext := fresh "Htext" in
  let Htruthy := fresh "Htruthy" in
  destruct Hocr as (visionData & detections & Hok & Hjson & Hdet & Htext
                    & Htruthy);
  rewrite Hok; repeat run_step; rewrite Hjson; repeat run_step;
  rewrite Hdet; repeat run_step; rewrite Htext; repeat run_step;
  rewrite Htruthy; repeat run_step.


(** The statuses that [NextResponse.json] accepts with a body. *)
Lemma refused_status_None (s : Z) :
  refused_status s = None <->
  200 <= s <= 599 /\ s <> 204 /\ s <> 205 /\ s <> 304.
Proof.
  unfold refused_status, forbids_body.
  destruct (Z.ltb_spec s 200), (Z.ltb_spec 599 s); cbn [orb];
    try (split; [discriminate | lia]).
  destruct (Z.eqb_spec s 101), (Z.eqb_spec s 103), (Z.eqb_spec s 204),
    (Z.eqb_spec s 205), (Z.eqb_spec s 304); cbn [orb];
    try (split; [discriminate | lia]).
  split; [lia | reflexivity].
Qed.

(** A failing provider status is mirrored exactly when it is one of 300 to
    599 other than 304. *)
Lemma failing_status_accepted (res : fetch_response) :
  ok res = false ->
  (refused_status (res_status res) = None <->
   300 <= res_status res <= 599 /\ res_status res <> 304).
Proof.
  unfold ok. intros Hnok. rewrite refused_status_None.
  destruct (Z.leb_spec 200 (res_status res)),
    (Z.leb_spec (res_status res) 299); cbn [andb] in Hnok;
    try discriminate Hnok; lia.
Qed.


(** The handler when the OCR call succeeds and detects no text. *)
Lemma POST_no_text (h : host) (req : NextRequest)
    (difyApiKey googleApiKey : string) (prompt : value) (rq : fetch_request)
    (visionRes : fetch_response) (visionData detections ocrText : value) :
  ocr_call h req difyApiKey googleApiKey prompt rq visionRes ->
  ok visionRes = true ->
  res_json visionRes = inr visionData ->
  detections_of visionData = inr detections ->
  ocrText_of detections = inr ocrText ->
  truthy ocrText = false ->
  POST h req =
    ((request_logs true true ++ [Fetch rq])%list,
     NextResponse_json (error_body "No text detected in the image.") 400).
Proof.
  intros Hcall Hok Hjson Hdet Htext Hfalsy.
  enter_ocr Hcall.
  rewrite (bind_await_fetch _ _ _ _ Hfetch). rewrite Hok.
  repeat run_step. rewrite Hjson. repeat run_step.
  rewrite Hdet. repeat run_step. rewrite Htext. repeat run_step.
  rewrite Hfalsy. reflexivity.
Qed.

(** C2: when the OCR provider answers with success and the text
    annotations of its first response are absent or an empty array, the
    handler answers with status 400 and "No text detected in the image.",
    and the OCR call is the only outbound call: the workflow provider is
    not called. *)
Theorem no_text_detected (h : host) (req : NextRequest)
    (difyApiKey googleApiKey : string) (prompt : value) (rq : fetch_request)
    (visionRes : fetch_response) (visionData detections : value) :
  ocr_call h req difyApiKey googleApiKey prompt rq visionRes ->
  ok visionRes = true ->
  res_json visionRes = inr visionData ->
  detections_of visionData = inr detections ->
  detections = VUndefined \/ detections = VArr [] ->
  status (snd (POST h req)) = 400 /\
  json_body (snd (POST h req)) = error_body "No text detected in the image." /\
  fetches (fst (POST h req)) = [rq].
Proof.
  intros Hcall Hok Hjson Hdet Hnone.
  rewrite (POST_no_text h req difyApiKey googleApiKey prompt rq visionRes
             visionData detections (VStr "")); auto.
  destruct Hnone as [-> | ->]; reflexivity.
Qed.

(** The handler when both calls succeed. *)
Lemma POST_success (h : host) (req : NextRequest)
    (difyApiKey googleApiKey : string) (prompt : value) (rq : fetch_request)
    (visionRes : fetch_response) (ocrText : value) (rq' : fetch_request)
    (workflowRes : fetch_response) (workflowData outputs : value) :
  ocr_call h req difyApiKey googleApiKey prompt rq visionRes ->
  ocr_succeeds visionRes ocrText ->
  workflow_call h difyApiKey ocrText prompt rq' workflowRes ->
  ok workflowRes = true ->
  res_json workflowRes = inr workflowData ->
  outputs_of workflowData = inr outputs ->
  POST h req =
    ((request_logs true true ++ [Fetch rq; Fetch rq'])%list,
     NextResponse_json
       (VObj [("answer",
               js_or (opt_member outputs "result")
                     (of_option_string (JSON_stringify_2 outputs)))])
       200).
Proof.
  intros Hcall Hocr [-> Hwf] Hok' Hjson' Hout.
  enter_ocr Hcall.
  rewrite (bind_await_fetch _ _ _ _ Hfetch).
  enter_workflow Hocr.
  unfold difyApiUrl in Hwf.
  rewrite (bind_await_fetch _ _ _ _ Hwf). rewrite Hok'.
  repeat run_step. rewrite Hjson'. repeat run_step.
  unfold resultText_of. rewrite Hout. repeat run_step.
  reflexivity.
Qed.

(** C1, as the handler has it: when both calls succeed, the handler
    answers with status 200 and an [answer] that is the [result] of the
    workflow outputs when that is truthy, and otherwise the serialization
    of the outputs with an indentation of two spaces. *)
Theorem normalization (h : host) (req : NextRequest)
    (difyApiKey googleApiKey : string) (prompt : value) (rq : fetch_request)
    (visionRes : fetch_response) (ocrText : value) (rq' : fetch_request)
    (workflowRes : fetch_response) (workflowData outputs : value) :
  ocr_call h req difyApiKey googleApiKey prompt rq visionRes ->
  ocr_succeeds visionRes ocrText ->
  workflow_call h difyApiKey ocrText prompt rq' workflowRes ->
  ok workflowRes = true ->
  res_json workflowRes = inr workflowData ->
  outputs_of workflowData = inr outputs ->
  status (snd (POST h req)) = 200 /\
  json_body (snd (POST h req)) =
    VObj [("answer",
           if truthy (opt_member outputs "result")
           then opt_member outputs "result"
           else of_option_string (JSON_stringify_2 outputs))].
Proof.
  intros Hcall Hocr Hwf Hok' Hjson' Hout.
  rewrite (POST_success h req difyApiKey googleApiKey prompt rq visionRes
             ocrText rq' workflowRes workflowData outputs); auto.
Qed.

Lemma wrap_not_empty (opening closing gap indent : string)
    (partial : list string) :
  opening <> "" -> wrap opening closing gap indent partial <> "".
Proof.
  intros Hopen. unfold wrap.
  destruct opening as [| c opening]; [contradiction |].
  destruct partial; [| destruct (gap =? "")%string]; simpl; discriminate.
Qed.

Lemma stringify_object (gap indent : string) (props : list (string * value)) :
  exists s, serialize gap indent (VObj props) = Some s /\ s <> "".
Proof.
  simpl. eexists. split; [reflexivity |].
  apply wrap_not_empty. discriminate.
Qed.

(** C9: when both calls succeed and the [result] field of the workflow
    outputs is present but falsy (the empty string, [0], [false],
    [null]), the answer is the serialization of the whole outputs, a
    non-empty string, and not the falsy [result]. *)
Theorem fallback_by_falsiness (h : host) (req : NextRequest)
    (difyApiKey googleApiKey : string) (prompt : value) (rq : fetch_request)
    (visionRes : fetch_response) (ocrText : value) (rq' : fetch_request)
    (workflowRes : fetch_response) (workflowData outputs : value) :
  ocr_call h req difyApiKey googleApiKey prompt rq visionRes ->
  ocr_succeeds visionRes ocrText ->
  workflow_call h difyApiKey ocrText prompt rq' workflowRes ->
  ok workflowRes = true ->
  res_json workflowRes = inr workflowData ->
  outputs_of workflowData = inr outputs ->
  present outputs "result" = true ->
  truthy (opt_member outputs "result") = false ->
  exists serialized,
    JSON_stringify_2 outputs = Some serialized /\
    serialized <> "" /\
    status (snd (POST h req)) = 200 /\
    json_body (snd (POST h req)) = VObj [("answer", VStr serialized)].
Proof.
  intros Hcall Hocr Hwf Hok' Hjson' Hout Hpresent Hfalsy.
  rewrite (POST_success h req difyApiKey googleApiKey prompt rq visionRes
             ocrText rq' workflowRes workflowData outputs); auto.
  destruct outputs as [| | | | | | props]; try discriminate Hpresent.
  destruct (stringify_object "  " "" props) as (s & Hs & Hne).
  exists s. unfold JSON_stringify_2, js_or. rewrite Hfalsy, Hs. auto.
Qed.

(** ** The instruction passed to the workflow *)

Lemma lookup_absent (k : string) (props : list (string * value)) :
  has_prop k props = false -> lookup k props = VUndefined.
Proof.
  induction props as [| [k' v] props IH]; simpl; [reflexivity |].
  destruct (k =? k')%string; simpl; [discriminate | exact IH].
Qed.

Lemma opt_member_absent (v : value) (k : string) :
  present v k = false -> opt_member v k = VUndefined.
Proof. destruct v; simpl; auto using lookup_absent. Qed.

(** C8, as the handler has it: when the OCR call succeeded with text, the
    second outbound call is the workflow run, and its [user_prompt] input
    is the request's prompt when that is truthy and the default
    instruction otherwise; in particular it is the default instruction
    when the request has no [prompt] field. *)
Theorem user_prompt_or_default (h : host) (req : NextRequest) (parsed : value)
    (difyApiKey googleApiKey : string) (prompt : value) (rq : fetch_request)
    (visionRes : fetch_response) (ocrText : value) :
  has_body req parsed ->
  ocr_call h req difyApiKey googleApiKey prompt rq visionRes ->
  ocr_succeeds visionRes ocrText ->
  exists rq',
    nth_error (fetches (fst (POST h req))) 1 = Some rq' /\
    url rq' = to_string (difyApiUrl h) ++ "/workflows/run" /\
    body rq' =
      workflow_body ocrText
        (if truthy (opt_member parsed "prompt")
         then opt_member parsed "prompt"
         else VStr default_prompt) /\
    (present parsed "prompt" = false ->
     body rq' = workflow_body ocrText (VStr default_prompt)).
Proof.
  intros [Hreq0 _] Hcall Hocr.
  assert (Hp : prompt = opt_member parsed "prompt").
  { destruct Hcall as (parsed' & _ & _ & [Hreq' _] & _ & _ & Hprompt & _).
    rewrite Hreq0 in Hreq'. injection Hreq' as <-. now symmetry. }
  exists (workflow_request (difyApiUrl h) (VStr difyApiKey) ocrText prompt).
  split; [| split; [reflexivity | split]].
  - enter_ocr Hcall.
    rewrite (bind_await_fetch _ _ _ _ Hfetch).
    enter_workflow Hocr.
    match goal with
    | |- context [bind (await_fetch ?h ?r) ?k] =>
        destruct (fst_bind_await_fetch h r k) as [rest Hrest];
        destruct (bind (await_fetch h r) k) as [t [e | a]]
    end; cbn [fst snd] in *; subst t; unfold difyApiUrl; reflexivity.
  - subst prompt. reflexivity.
  - intros Habsent. subst prompt.
    rewrite (opt_member_absent _ _ Habsent). reflexivity.
Qed.

(** ** The image text handed to the OCR provider *)

Lemma split_first (s : string) :
  exists pieces, split comma s = up_to_comma s :: pieces.
Proof.
  induction s as [| c s [pieces IH]]; simpl.
  - now exists [].
  - destruct (Ascii.eqb c comma).
    + eexists; reflexivity.
    + rewrite IH. now exists pieces.
Qed.

Lemma split_second (s : string) :
  nth_error (split comma s) 1 = option_map up_to_comma (after_first_comma s).
Proof.
  induction s as [| c s IH]; simpl; [reflexivity |].
  destruct (Ascii.eqb c comma).
  - destruct (split_first s) as [pieces ->]. reflexivity.
  - destruct (split_first s) as [pieces Hs]. rewrite Hs in *. exact IH.
Qed.

(** C10, as the handler has it: the image text is not checked to be a
    data URL. When the image is any non-empty string and both credentials
    are set, the presence check passes and the OCR provider is called with
    the text between the first comma and the next comma (or the end of the
    string), and with no content when the string has no comma. An image
    that is missing or the empty string is rejected with status 400. *)
Theorem image_format_unchecked (h : host) (req : NextRequest) (parsed : value)
    (difyApiKey googleApiKey : string) :
  has_body req parsed ->
  configured h difyApiKey googleApiKey ->
  (forall image,
     opt_member parsed "image" = VStr image -> image <> "" ->
     exists rest,
       fst (POST h req) =
         (request_logs true true
            ++ Fetch (vision_request (VStr googleApiKey)
                        (of_option_string
                           (option_map up_to_comma (after_first_comma image))))
            :: rest)%list) /\
  (opt_member parsed "image" = VUndefined \/
   opt_member parsed "image" = VStr "" ->
   POST h req = ([], NextResponse_json (error_body "Image is required") 400)).
Proof.
  intros Hbody Hconf. split.
  - intros image Himage Hne.
    destruct Hbody as [Hreq Hnn].
    destruct Hconf as (Hdk & Hdne & Hgk & Hgne).
    unfold POST, POST_body. rewrite Hreq.
    repeat run_step. rewrite Himage.
    rewrite (truthy_VStr _ Hne). repeat run_step.
    rewrite Hdk, Hgk. cbn [of_option_string].
    rewrite !(truthy_VStr _ Hdne), !(truthy_VStr _ Hgne). repeat run_step.
    unfold split_comma_1. rewrite split_second.
    replace (inr match option_map up_to_comma (after_first_comma image) with
                 | Some piece => VStr piece
                 | None => VUndefined
                 end)
      with (@inr js_error value
              (of_option_string
                 (option_map up_to_comma (after_first_comma image))))
      by (destruct (after_first_comma image); reflexivity).
    repeat run_step.
    match goal with
    | |- context [bind (await_fetch ?h ?r) ?k] =>
        destruct (fst_bind_await_fetch h r k) as [rest Hrest];
        destruct (bind (await_fetch h r) k) as [t [e | a]]
    end; cbn [fst snd] in *; subst t.
    + unfold POST_catch. cbn [fst snd app]. eexists. reflexivity.
    + exists rest. reflexivity.
  - intros Hmissing. apply (POST_without_image h req parsed Hbody).
    destruct Hmissing as [-> | ->]; reflexivity.
Qed.

End RouteProperties.

(** * The handler on examples *)

Lemma sample_configured (v w : fetch_response) :
  configured (sample_host v w) "dify-key" "google-key".
Proof. repeat split; try reflexivity; discriminate. Qed.

Lemma sample_ocr_call (v w : fetch_response) (parsed : value) :
  opt_member parsed "image" = VStr sample_image ->
  is_nullish parsed = false ->
  ocr_call (sample_host v w) (request_of parsed) "dify-key" "google-key"
    (opt_member parsed "prompt")
    (vision_request (VStr "google-key") (VStr "AAAA")) v.
Proof.
  intros Himage Hnn. exists parsed, sample_image, (VStr "AAAA").
  split; [split; [reflexivity | exact Hnn] |].
  split; [exact Himage |].
  split; [discriminate |].
  split; [reflexivity |].
  split; [apply sample_configured |].
  repeat split.
Qed.

Lemma sample_ocr_succeeds (text : string) :
  text <> "" -> ocr_succeeds (vision_found text) (VStr text).
Proof.
  intros Hne. eexists. eexists.
  split; [reflexivity |]. split; [reflexivity |].
  split; [reflexivity |]. split; [reflexivity |].
  now apply truthy_VStr.
Qed.

Lemma sample_workflow_call (v w : fetch_response) (ocrText prompt : value) :
  workflow_call (sample_host v w) "dify-key" ocrText prompt
    (workflow_request (VStr default_dify_url) (VStr "dify-key") ocrText prompt)
    w.
Proof. split; reflexivity. Qed.

Lemma hello_not_empty : "Hello World" <> "".
Proof. discriminate. Qed.

Lemma image_required_witness :
  has_body (request_of body_without_image) body_without_image /\
  truthy (opt_member body_without_image "image") = false /\
  POST (sample_host vision_empty unavailable) (request_of body_without_image)
    = ([], NextResponse_json (error_body "Image is required") 400).
Proof.
  assert (Hbody : has_body (request_of body_without_image) body_without_image)
    by (split; reflexivity).
  split; [exact Hbody |]. split; [reflexivity |].
  apply (image_required _ _ body_without_image Hbody). reflexivity.
Defined.

Lemma request_has_body : has_body request_with_image body_with_image.
Proof. split; reflexivity. Qed.

Lemma sample_ocr_call_with_image (v w : fetch_response) :
  ocr_call (sample_host v w) request_with_image "dify-key" "google-key"
    VUndefined sample_vision_request v.
Proof. apply (sample_ocr_call v w body_with_image); reflexivity. Qed.

Lemma hello_detected :
  ocr_succeeds (vision_found "Hello World") (VStr "Hello World").
Proof. apply sample_ocr_succeeds, hello_not_empty. Qed.

Lemma not_configured_witness :
  has_body request_with_image body_with_image /\
  truthy (opt_member body_with_image "image") = true /\
  (missing (DIFY_API_KEY (env host_unconfigured)) \/
   missing (GOOGLE_VISION_API_KEY (env host_unconfigured))) /\
  status (snd (POST host_unconfigured request_with_image)) = 500 /\
  (json_body (snd (POST host_unconfigured request_with_image))
     = error_body "Dify API Key is not configured" \/
   json_body (snd (POST host_unconfigured request_with_image))
     = error_body "Google Vision API Key is not configured") /\
  fetches (fst (POST host_unconfigured request_with_image)) = [].
Proof.
  assert (Hkeys : missing (DIFY_API_KEY (env host_unconfigured)) \/
                  missing (GOOGLE_VISION_API_KEY (env host_unconfigured)))
    by (right; left; reflexivity).
  split; [exact request_has_body |]. split; [reflexivity |].
  split; [exact Hkeys |].
  exact (not_configured host_unconfigured request_with_image body_with_image
           request_has_body eq_refl Hkeys).
Defined.





(** A provider status outside 200 to 599 ends the same way, with the
    constructor's other error. *)
Example out_of_range_status :
  refused_status 600 = Some (StatusOutOfRange 600) /\
  status (snd (POST host_out_of_range request_with_image)) = 500 /\
  json_body (snd (POST host_out_of_range request_with_image))
  = VObj [("error",
           VStr ("Internal Server Error: "
                   ++ node_response_error_message (StatusOutOfRange 600)))] /\
  fetches (fst (POST host_out_of_range request_with_image))
  = [sample_vision_request].
Proof. repeat split. Qed.

Example unavailable_message :
  json_body (snd (POST host_unavailable request_with_image))
  = error_body "Analysis failed: service unavailable".
Proof. reflexivity. Qed.

Lemma no_text_detected_witness :
  ocr_call host_no_text request_with_image "dify-key" "google-key" VUndefined
    sample_vision_request vision_empty /\
  ok vision_empty = true /\
  (exists visionData,
     res_json vision_empty = inr visionData /\
     detections_of visionData = inr (VArr [])) /\
  status (snd (POST host_no_text request_with_image)) = 400 /\
  json_body (snd (POST host_no_text request_with_image))
    = error_body "No text detected in the image." /\
  fetches (fst (POST host_no_text request_with_image))
    = [sample_vision_request].
Proof.
  split; [apply sample_ocr_call_with_image |]. split; [reflexivity |].
  split; [eexists; split; reflexivity |].
  exact (no_text_detected host_no_text request_with_image _ _ _ _ vision_empty
           _ (VArr []) (sample_ocr_call_with_image _ _)
           eq_refl eq_refl eq_refl (or_intror eq_refl)).
Defined.

(** The spec's example: the outputs carry a [result]. *)
Lemma normalization_witness :
  ocr_call host_echo request_with_image "dify-key" "google-key" VUndefined
    sample_vision_request (vision_found "Hello World") /\
  ocr_succeeds (vision_found "Hello World") (VStr "Hello World") /\
  status (snd (POST host_echo request_with_image)) = 200 /\
  json_body (snd (POST host_echo request_with_image))
    = VObj [("answer", VStr "Item: Value")].
Proof.
  split; [apply sample_ocr_call_with_image |]. split; [exact hello_detected |].
  exact (normalization host_echo request_with_image _ _ _ _ _ _ _ _ _
           outputs_with_result (sample_ocr_call_with_image _ _) hello_detected
           (sample_workflow_call _ _ _ _) eq_refl eq_refl eq_refl).
Defined.

(** The spec's other example: the outputs carry no [result]. *)
Example serialized_outputs :
  JSON_stringify_2 outputs_without_result
  = Some ("{" ++ String newline ("  " ++ quote "foo" ++ ": " ++ quote "bar"
                                  ++ String newline "}")) /\
  json_body (snd (POST (host_with_outputs outputs_without_result)
                    request_with_image))
  = VObj [("answer",
           of_option_string (JSON_stringify_2 outputs_without_result))].
Proof. split; reflexivity. Qed.

(** C1 as stated fails where the [result] field is present and is the
    empty string: the claim makes the answer that empty string, the
    handler answers with the serialized outputs. *)
Lemma normalization_counterexample :
  answer_by_presence outputs_with_empty_result = VStr "" /\
  json_body (snd (POST host_empty_result request_with_image))
    = VObj [("answer",
             of_option_string (JSON_stringify_2 outputs_with_empty_result))] /\
  json_body (snd (POST host_empty_result request_with_image))
    <> VObj [("answer", answer_by_presence outputs_with_empty_result)].
Proof.
  split; [reflexivity |]. split; [reflexivity |].
  vm_compute. discriminate.
Qed.

Lemma fallback_by_falsiness_witness :
  present outputs_with_empty_result "result" = true /\
  truthy (opt_member outputs_with_empty_result "result") = false /\
  exists serialized,
    JSON_stringify_2 outputs_with_empty_result = Some serialized /\
    serialized <> "" /\
    status (snd (POST host_empty_result request_with_image)) = 200 /\
    json_body (snd (POST host_empty_result request_with_image))
      = VObj [("answer", VStr serialized)].
Proof.
  split; [reflexivity |]. split; [reflexivity |].
  exact (fallback_by_falsiness host_empty_result request_with_image
           "dify-key" "google-key" _ _ _ _ _ _ _ outputs_with_empty_result
           (sample_ocr_call_with_image _ _) hello_detected
           (sample_workflow_call _ _ _ _)
           eq_refl eq_refl eq_refl eq_refl eq_refl).
Defined.

Lemma user_prompt_or_default_witness :
  has_body request_with_image body_with_image /\
  ocr_call host_echo request_with_image "dify-key" "google-key" VUndefined
    sample_vision_request (vision_found "Hello World") /\
  ocr_succeeds (vision_found "Hello World") (VStr "Hello World") /\
  exists rq',
    nth_error (fetches (fst (POST host_echo request_with_image))) 1
      = Some rq' /\
    url rq' = to_string (difyApiUrl host_echo) ++ "/workflows/run" /\
    body rq' =
      workflow_body (VStr "Hello World")
        (if truthy (opt_member body_with_image "prompt")
         then opt_member body_with_image "prompt"
         else VStr default_prompt) /\
    (present body_with_image "prompt" = false ->
     body rq' = workflow_body (VStr "Hello World") (VStr default_prompt)).
Proof.
  split; [exact request_has_body |].
  split; [apply sample_ocr_call_with_image |].
  split; [exact hello_detected |].
  exact (user_prompt_or_default host_echo request_with_image body_with_image
           _ _ _ _ _ _ request_has_body (sample_ocr_call_with_image _ _)
           hello_detected).
Defined.

(** A supplied prompt that is truthy is passed on. *)
Example supplied_prompt_passed :
  option_map body
    (nth_error (fetches (fst (POST host_echo (request_of body_with_prompt)))) 1)
  = Some (workflow_body (VStr "Hello World") (VStr "list the items")).
Proof. reflexivity. Qed.

(** C8 as stated fails where a prompt is supplied and is the empty
    string: the claim passes that prompt on, the handler passes the
    default instruction. *)
Lemma user_prompt_counterexample :
  prompt_by_presence body_with_empty_prompt = VStr "" /\
  option_map body
    (nth_error
       (fetches (fst (POST host_echo (request_of body_with_empty_prompt)))) 1)
  = Some (workflow_body (VStr "Hello World") (VStr default_prompt)) /\
  option_map body
    (nth_error
       (fetches (fst (POST host_echo (request_of body_with_empty_prompt)))) 1)
  <> Some (workflow_body (VStr "Hello World")
             (prompt_by_presence body_with_empty_prompt)).
Proof.
  split; [reflexivity |]. split; [reflexivity |].
  vm_compute. discriminate.
Qed.

Lemma image_format_unchecked_witness :
  has_body (request_of body_with_commas) body_with_commas /\
  configured host_echo "dify-key" "google-key" /\
  (forall image,
     opt_member body_with_commas "image" = VStr image -> image <> "" ->
     exists rest,
       fst (POST host_echo (request_of body_with_commas)) =
         (request_logs true true
            ++ Fetch (vision_request (VStr "google-key")
                        (of_option_string
                           (option_map up_to_comma (after_first_comma image))))
            :: rest)%list) /\
  (opt_member body_with_commas "image" = VUndefined \/
   opt_member body_with_commas "image" = VStr "" ->
   POST host_echo (request_of body_with_commas)
     = ([], NextResponse_json (error_body "Image is required") 400)).
Proof.
  assert (Hbody : has_body (request_of body_with_commas) body_with_commas)
    by (split; reflexivity).
  split; [exact Hbody |]. split; [apply sample_configured |].
  exact (image_format_unchecked host_echo _ body_with_commas _ _ Hbody
           (sample_configured _ _)).
Defined.

(** An image text without a comma: the call carries no content. *)
Example content_absent :
  body (vision_request (VStr "google-key") VUndefined)
  = Some ("{" ++ quote "requests" ++ ":[{" ++ quote "image" ++ ":{},"
            ++ quote "features" ++ ":[{" ++ quote "type" ++ ":"
            ++ quote "TEXT_DETECTION" ++ "}]}]}").
Proof. reflexivity. Qed.

(** C10 as stated fails on an image text with two commas: what follows
    the first comma of "a,b,c" is "b,c", the handler sends "b". *)
Lemma image_format_counterexample :
  after_first_comma "a,b,c" = Some "b,c" /\
  hd_error (fetches (fst (POST host_echo (request_of body_with_commas))))
    = Some (vision_request (VStr "google-key") (VStr "b")) /\
  hd_error (fetches (fst (POST host_echo (request_of body_with_commas))))
    <> Some (vision_request (VStr "google-key")
               (of_option_string (after_first_comma "a,b,c"))).
Proof.
  split; [reflexivity |]. split; [reflexivity |].
  vm_compute. discriminate.
Qed.

(** * Properties of the image preparer *)

Section Rounding.
Local Open Scope Q_scope.
Import Binary64.

Lemma pow2_pos (e : Z) : 0 < 2 ^ e.
Proof. apply Qpower_0_lt. reflexivity. Qed.

Lemma pow2_log2 (n : Z) : (0 < n)%Z ->
  2 ^ Z.log2 n <= inject_Z n /\ inject_Z n < 2 * 2 ^ Z.log2 n.
Proof.
  intros Hn. destruct (Z.log2_spec n Hn) as [Hl Hu].
  pose proof (Z.log2_nonneg n) as H0.
  assert (E : inject_Z (2 ^ Z.log2 n) == 2 ^ Z.log2 n)
    by (rewrite Zpower_Qpower by assumption; reflexivity).
  split.
  - rewrite <- E. rewrite <- Zle_Qle. exact Hl.
  - rewrite <- E. change 2 with (inject_Z 2) at 1. rewrite <- inject_Z_mult.
    rewrite <- Zlt_Qlt. rewrite Z.pow_succ_r in Hu by assumption. exact Hu.
Qed.

Lemma ilog2_spec (x : Q) : 0 < x ->
  2 ^ ilog2 x <= x /\ x < 2 * 2 ^ ilog2 x.
Proof.
  intros Hx. destruct x as [n d].
  assert (Hn : (0 < n)%Z).
  { unfold Qlt in Hx. simpl in Hx. lia. }
  destruct (pow2_log2 n Hn) as [Hn1 Hn2].
  destruct (pow2_log2 (Zpos d) (Pos2Z.is_pos d)) as [Hd1 Hd2].
  pose proof (pow2_pos (Z.log2 n)) as Pn.
  pose proof (pow2_pos (Z.log2 (Zpos d))) as Pd.
  assert (Ex : (n # d) * inject_Z (Zpos d) == inject_Z n).
  { rewrite (Qmake_Qdiv n d). field. discriminate. }
  assert (Hdpos : 0 < inject_Z (Zpos d)) by reflexivity.
  unfold ilog2. cbn [Qnum Qden].
  set (e := (Z.log2 n - Z.log2 (Zpos d))%Z).
  assert (Ee : 2 ^ e * 2 ^ Z.log2 (Zpos d) == 2 ^ Z.log2 n).
  { rewrite <- Qpower_plus by discriminate. unfold e.
    replace (Z.log2 n - Z.log2 (Z.pos d) + Z.log2 (Z.pos d))%Z
      with (Z.log2 n) by ring.
    reflexivity. }
  assert (Ee1 : 2 * 2 ^ (e - 1) == 2 ^ e).
  { change 2 with (2 ^ 1) at 1. rewrite <- Qpower_plus by discriminate.
    replace (1 + (e - 1))%Z with e by lia. reflexivity. }
  pose proof (pow2_pos e) as Pe. pose proof (pow2_pos (e - 1)) as Pe1.
  destruct (Qle_bool (2 ^ e) (n # d)) eqn:Htest.
  - apply Qle_bool_iff in Htest.
    revert Htest Ex Ee Hn1 Hn2 Hd1 Hd2 Pn Pd Pe Hdpos Hx.
    generalize (inject_Z n) (inject_Z (Zpos d)) (2 ^ Z.log2 n)
      (2 ^ Z.log2 (Zpos d)) (2 ^ e) (n # d).
    intros N D PN PD y x. intros.
    split; [assumption |].
    apply (Qmult_lt_r _ _ D Hdpos).
    assert (y * PD <= y * D) by (apply Qmult_le_l; assumption).
    lra.
  - assert (Htest' : n # d < 2 ^ e).
    { apply Qnot_le_lt. intros H. apply Qle_bool_iff in H. congruence. }
    clear Htest.
    revert Htest' Ex Ee Ee1 Hn1 Hn2 Hd1 Hd2 Pn Pd Pe Pe1 Hdpos Hx.
    generalize (inject_Z n) (inject_Z (Zpos d)) (2 ^ Z.log2 n)
      (2 ^ Z.log2 (Zpos d)) (2 ^ (e - 1)) (2 ^ e) (n # d).
    intros N D PN PD y1 y x. intros.
    split.
    + apply (Qmult_le_r _ _ D Hdpos).
      assert (y1 * D <= y1 * (2 * PD)) by (apply Qmult_le_l; lra).
      assert (y1 * (2 * PD) == y * PD) by (rewrite <- Ee1; ring).
      lra.
    + lra.
Qed.

Lemma round_half_even_close (y : Q) :
  y - (1 # 2) <= inject_Z (round_half_even y) /\
  inject_Z (round_half_even y) <= y + (1 # 2).
Proof.
  unfold round_half_even.
  pose proof (Qfloor_le y) as Hl. pose proof (Qlt_floor y) as Hu.
  rewrite inject_Z_plus in Hu. change (inject_Z 1) with 1 in Hu.
  set (f := Qfloor y) in *.
  destruct (Qcompare (y - inject_Z f) (1 # 2)) eqn:Hc.
  - apply Qeq_alt in Hc.
    destruct (Z.even f); [| rewrite inject_Z_plus; change (inject_Z 1) with 1];
      split; lra.
  - apply Qlt_alt in Hc. split; lra.
  - apply Qgt_alt in Hc. rewrite inject_Z_plus. change (inject_Z 1) with 1.
    split; lra.
Qed.

(** Rounding a positive number of the normal range changes it by at most
    the relative error [2^-53]. *)
Lemma round_pos_accurate (x : Q) :
  2 ^ (-1022) <= x ->
  x * (1 - unit_roundoff) <= round_pos x /\
  round_pos x <= x * (1 + unit_roundoff).
Proof.
  intros Hnormal.
  assert (Hx : 0 < x)
    by (eapply Qlt_le_trans; [apply (pow2_pos (-1022)) | exact Hnormal]).
  destruct (ilog2_spec x Hx) as [Hl Hu].
  assert (He : (-1022 <= ilog2 x)%Z).
  { assert (H : 2 ^ (-1022) < 2 ^ (ilog2 x + 1)).
    { eapply Qle_lt_trans; [exact Hnormal |].
      rewrite Qpower_plus by discriminate. rewrite Qmult_comm. exact Hu. }
    apply Qpower_lt_compat_l_inv in H; [lia | reflexivity]. }
  unfold round_pos, ulp. rewrite Z.max_l by assumption.
  set (e := ilog2 x) in *.
  assert (Ee : 2 ^ e == 2 ^ 53 * 2 ^ (e - 52 - 1)).
  { rewrite <- Qpower_plus by discriminate.
    replace (53 + (e - 52 - 1))%Z with e by lia. reflexivity. }
  assert (Eu : 2 ^ (e - 52) == 2 * 2 ^ (e - 52 - 1)).
  { change (2 * 2 ^ (e - 52 - 1)) with (2 ^ 1 * 2 ^ (e - 52 - 1)).
    rewrite <- !Qpower_plus by discriminate.
    replace (1 + (e - 52 - 1))%Z with (e - 52)%Z by lia. reflexivity. }
  pose proof (pow2_pos (e - 52)) as Pu.
  pose proof (pow2_pos (e - 52 - 1)) as Ph.
  destruct (round_half_even_close (x / 2 ^ (e - 52))) as [Rl Ru].
  revert Rl Ru.
  generalize (inject_Z (round_half_even (x / 2 ^ (e - 52)))). intros k Rl Ru.
  assert (Ex : x / 2 ^ (e - 52) * 2 ^ (e - 52) == x).
  { field. intros H. rewrite H in Pu. discriminate Pu. }
  revert Rl Ru Ex. generalize (x / 2 ^ (e - 52)). intros y Rl Ru Ex.
  revert Hl Ee Eu Pu Ph Ex.
  generalize (2 ^ e) (2 ^ (e - 52)) (2 ^ (e - 52 - 1)).
  intros pe pu ph. intros.
  assert (Hk1 : (y - (1 # 2)) * pu <= k * pu) by (apply Qmult_le_compat_r; lra).
  assert (Hk2 : k * pu <= (y + (1 # 2)) * pu) by (apply Qmult_le_compat_r; lra).
  assert (Hhalf : ph * 2 ^ 53 <= x) by lra.
  unfold unit_roundoff. change (1 # 9007199254740992) with (/ 2 ^ 53).
  split.
  - apply Qle_trans with ((y - (1 # 2)) * pu); [| exact Hk1].
    assert (x * / 2 ^ 53 >= ph).
    { apply Qle_shift_div_l; [reflexivity | exact Hhalf]. }
    lra.
  - apply Qle_trans with ((y + (1 # 2)) * pu); [exact Hk2 |].
    assert (x * / 2 ^ 53 >= ph).
    { apply Qle_shift_div_l; [reflexivity | exact Hhalf]. }
    lra.
Qed.

Lemma round_positive (x : Q) : 0 < x -> round x = round_pos x.
Proof.
  intros Hx. unfold round.
  destruct (Qcompare 0 x) eqn:Hc; [apply Qeq_alt in Hc | reflexivity
                                  | apply Qgt_alt in Hc]; lra.
Qed.

Lemma round_zero (x : Q) : x == 0 -> round x = 0.
Proof.
  intros Hx. unfold round.
  destruct (Qcompare 0 x) eqn:Hc; [reflexivity | apply Qlt_alt in Hc
                                  | apply Qgt_alt in Hc]; lra.
Qed.

Lemma round_accurate (x : Q) :
  2 ^ (-1022) <= x ->
  x * (1 - unit_roundoff) <= round x /\ round x <= x * (1 + unit_roundoff).
Proof.
  intros Hnormal. rewrite round_positive.
  - now apply round_pos_accurate.
  - eapply Qlt_le_trans; [apply (pow2_pos (-1022)) | exact Hnormal].
Qed.

Lemma normal_above (x : Q) : 1 # 8388608 <= x -> 2 ^ (-1022) <= x.
Proof.
  intros Hx. eapply Qle_trans; [| exact Hx].
  apply Qle_trans with (2 ^ (-23)).
  - apply Qpower_le_compat_l; [lia | discriminate].
  - discriminate.
Qed.

Lemma set_canvas_dimension_small (default : Z) (x : Q) (m : Z) :
  0 <= x -> Qfloor x = m -> (0 <= m <= 1024)%Z ->
  set_canvas_dimension default x = m.
Proof.
  intros Hx Hm Hbound. unfold set_canvas_dimension, integer_part.
  apply Qle_bool_iff in Hx. rewrite Hx, Hm.
  rewrite Z.mod_small by lia.
  destruct (Z.leb_spec m 2147483647); [reflexivity | lia].
Qed.

(** The smaller dimension after scaling: [s] and [L] are the smaller and
    the larger dimension of the image. *)
Lemma scaled_dimension (default s L : Z) :
  (0 <= s <= L)%Z -> (1024 < L < 2 ^ 32)%Z ->
  let m := set_canvas_dimension default
             (mul (inject_Z s) (div 1024 (inject_Z L))) in
  (0 <= m <= 1024)%Z /\ (Z.abs (1024 * s - m * L) <= L)%Z.
Proof.
  intros Hs HL.
  assert (HW : 0 < inject_Z L).
  { change 0 with (inject_Z 0). rewrite <- Zlt_Qlt. lia. }
  assert (HW32 : inject_Z L <= 4294967296).
  { change 4294967296 with (inject_Z 4294967296). rewrite <- Zle_Qle. lia. }
  assert (HW1024 : 1024 <= inject_Z L).
  { change 1024 with (inject_Z 1024). rewrite <- Zle_Qle. lia. }
  assert (HSW : inject_Z s <= inject_Z L) by (rewrite <- Zle_Qle; lia).
  assert (Ea : 1024 / inject_Z L * inject_Z L == 1024).
  { field. intros H. rewrite H in HW. discriminate HW. }
  assert (Ha : 1 # 4194304 <= 1024 / inject_Z L).
  { apply Qle_shift_div_l; [exact HW |]. lra. }
  unfold div, mul.
  destruct (round_accurate (1024 / inject_Z L)) as [Hq1 Hq2].
  { apply normal_above. eapply Qle_trans; [| exact Ha]. discriminate. }
  revert Ea Ha Hq1 Hq2.
  generalize (1024 / inject_Z L). intros a Ea Ha Hq1 Hq2.
  revert Hq1 Hq2. generalize (round a). intros q Hq1 Hq2.
  unfold unit_roundoff in *.
  assert (Hqw1 : a * (1 - unit_roundoff) * inject_Z L <= q * inject_Z L)
    by (apply Qmult_le_compat_r; [exact Hq1 | lra]).
  assert (Hqw2 : q * inject_Z L <= a * (1 + unit_roundoff) * inject_Z L)
    by (apply Qmult_le_compat_r; [exact Hq2 | lra]).
  destruct (Z.eq_dec s 0) as [-> | Hs0].
  - rewrite round_zero by ring. cbn. split; lia.
  - assert (HS : 1 <= inject_Z s).
    { change 1 with (inject_Z 1). rewrite <- Zle_Qle. lia. }
    assert (HS32 : inject_Z s <= 4294967296) by lra.
    assert (Hq0 : 1 # 8388608 <= q) by lra.
    assert (Hp0 : 1 # 8388608 <= inject_Z s * q).
    { apply Qle_trans with (1 * q); [lra |].
      apply Qmult_le_compat_r; lra. }
    destruct (round_accurate (inject_Z s * q) (normal_above _ Hp0))
      as [Hr1 Hr2].
    unfold unit_roundoff in Hr1, Hr2.
    revert Hr1 Hr2. generalize (round (inject_Z s * q)). intros r Hr1 Hr2.
    assert (Hr0 : 0 <= r) by lra.
    pose proof (Qfloor_le r) as Hfl. pose proof (Qlt_floor r) as Hfu.
    rewrite inject_Z_plus in Hfu. change (inject_Z 1) with 1 in Hfu.
    assert (Hm0 : (0 <= Qfloor r)%Z).
    { change 0%Z with (Qfloor 0). now apply Qfloor_resp_le. }
    assert (Hsq1 : inject_Z s * (a * (1 - unit_roundoff) * inject_Z L)
                   <= inject_Z s * (q * inject_Z L))
      by (apply Qmult_le_l; [lra | exact Hqw1]).
    assert (Hsq2 : inject_Z s * (q * inject_Z L)
                   <= inject_Z s * (a * (1 + unit_roundoff) * inject_Z L))
      by (apply Qmult_le_l; [lra | exact Hqw2]).
    assert (Esa : inject_Z s * (a * inject_Z L) == 1024 * inject_Z s)
      by (rewrite Ea; ring).
    assert (Hrw1 : inject_Z s * q * (1 - unit_roundoff) * inject_Z L
                   <= r * inject_Z L)
      by (apply Qmult_le_compat_r; [exact Hr1 | lra]).
    assert (Hrw2 : r * inject_Z L
                   <= inject_Z s * q * (1 + unit_roundoff) * inject_Z L)
      by (apply Qmult_le_compat_r; [exact Hr2 | lra]).
    assert (Hmw1 : inject_Z (Qfloor r) * inject_Z L <= r * inject_Z L)
      by (apply Qmult_le_compat_r; [exact Hfl | lra]).
    assert (Hmw2 : r * inject_Z L < (inject_Z (Qfloor r) + 1) * inject_Z L)
      by (apply Qmult_lt_compat_r; [exact HW | exact Hfu]).
    unfold unit_roundoff in *.
    assert (Hup : inject_Z (Qfloor r * L) <= inject_Z (1024 * s + L)).
    { rewrite inject_Z_plus, !inject_Z_mult. change (inject_Z 1024) with 1024.
      lra. }
    assert (Hup' : inject_Z (Qfloor r * L) < inject_Z (1025 * L)).
    { rewrite !inject_Z_mult. change (inject_Z 1025) with 1025. lra. }
    assert (Hlow : inject_Z (1024 * s) < inject_Z ((Qfloor r + 1) * L + 1)).
    { rewrite !inject_Z_plus, !inject_Z_mult, inject_Z_plus.
      change (inject_Z 1024) with 1024. change (inject_Z 1) with 1. lra. }
    rewrite <- Zle_Qle in Hup. rewrite <- Zlt_Qlt in Hup', Hlow.
    assert (Hm1024 : (Qfloor r <= 1024)%Z) by nia.
    rewrite (set_canvas_dimension_small default r (Qfloor r) Hr0 eq_refl)
      by lia.
    split; [lia |]. lia.
Qed.

Lemma gt_inject_Z (a b : Z) : gt (inject_Z a) (inject_Z b) = (b <? a)%Z.
Proof.
  unfold gt. destruct (Z.ltb_spec b a) as [H | H].
  - destruct (Qle_bool (inject_Z a) (inject_Z b)) eqn:Hle; [| reflexivity].
    apply Qle_bool_iff in Hle. rewrite <- Zle_Qle in Hle. lia.
  - rewrite Zle_Qle in H. apply Qle_bool_iff in H. now rewrite H.
Qed.

Lemma set_canvas_dimension_inject_Z (default n : Z) :
  (0 <= n <= 1024)%Z -> set_canvas_dimension default (inject_Z n) = n.
Proof.
  intros Hn. apply set_canvas_dimension_small.
  - change 0 with (inject_Z 0). rewrite <- Zle_Qle. lia.
  - apply Qfloor_Z.
  - exact Hn.
Qed.

End Rounding.

(** Examples: the proportional height, a height one below it because the
    product was rounded down, and a square image that loses one column. *)
Example canvas_size_examples :
  map (fun '(w, h) => canvas_size w h)
      [(3000, 1500); (1122, 561); (1429, 1429); (800, 600)]
  = [(1024, 512); (1024, 511); (1023, 1024); (800, 600)].
Proof. vm_compute. reflexivity. Qed.

(** C6: for an image of [img_width] by [img_height] pixels, when the
    larger dimension exceeds 1024 the larger dimension of the canvas is
    1024 and the smaller one is within one pixel of the proportional value
    (as a product: the cross difference of the two aspect ratios is at most
    the larger input dimension); when both dimensions are at most 1024 the
    canvas has the dimensions of the image. *)
Theorem canvas_size_bounded (img_width img_height : Z) :
  (0 <= img_width < 2 ^ 32)%Z ->
  (0 <= img_height < 2 ^ 32)%Z ->
  (1024 < Z.max img_width img_height ->
   Z.max (fst (canvas_size img_width img_height))
         (snd (canvas_size img_width img_height)) = 1024 /\
   Z.abs (fst (canvas_size img_width img_height) * img_height
          - snd (canvas_size img_width img_height) * img_width)
     <= Z.max img_width img_height)%Z /\
  (Z.max img_width img_height <= 1024 ->
   canvas_size img_width img_height = (img_width, img_height))%Z.
Proof.
  intros Hw Hh. unfold canvas_size, scaled_size.
  change MAX_WIDTH with (inject_Z 1024). change MAX_HEIGHT with (inject_Z 1024).
  rewrite !gt_inject_Z.
  destruct (Z.ltb_spec img_height img_width) as [Hlt | Hge].
  - destruct (Z.ltb_spec 1024 img_width) as [Hbig | Hsmall].
    + destruct (scaled_dimension 150 img_height img_width) as [Hm Hratio];
        [lia | lia |].
      cbn [fst snd]. rewrite (set_canvas_dimension_inject_Z 300 1024) by lia.
      change (inject_Z 1024) with 1024%Q.
      split; [intros _ | lia].
      split; [lia |]. rewrite Z.max_l by lia. lia.
    + cbn [fst snd]. rewrite !set_canvas_dimension_inject_Z by lia.
      split; [lia | reflexivity].
  - destruct (Z.ltb_spec 1024 img_height) as [Hbig | Hsmall].
    + destruct (scaled_dimension 300 img_width img_height) as [Hm Hratio];
        [lia | lia |].
      cbn [fst snd]. rewrite (set_canvas_dimension_inject_Z 150 1024) by lia.
      change (inject_Z 1024) with 1024%Q.
      split; [intros _ | lia].
      split; [lia |]. rewrite Z.max_r by lia. lia.
    + cbn [fst snd]. rewrite !set_canvas_dimension_inject_Z by lia.
      split; [lia | reflexivity].
Qed.

Lemma canvas_size_bounded_witness :
  (0 <= 4032 < 2 ^ 32) /\ (0 <= 3024 < 2 ^ 32) /\
  (1024 < Z.max 4032 3024 ->
   Z.max (fst (canvas_size 4032 3024)) (snd (canvas_size 4032 3024)) = 1024 /\
   Z.abs (fst (canvas_size 4032 3024) * 3024
          - snd (canvas_size 4032 3024) * 4032)
     <= Z.max 4032 3024) /\
  (Z.max 4032 3024 <= 1024 -> canvas_size 4032 3024 = (4032, 3024)).
Proof.
  assert (Hw : 0 <= 4032 < 2 ^ 32) by lia.
  assert (Hh : 0 <= 3024 < 2 ^ 32) by lia.
  split; [exact Hw |]. split; [exact Hh |].
  exact (canvas_size_bounded 4032 3024 Hw Hh).
Defined.

(** * Properties of the file check *)

(** C7: a file whose MIME type does not begin with "image/" is refused:
    the page shows the message that asks for an image file, its other state
    is unchanged, and nothing is read, decoded, drawn or encoded. The
    function makes no network call on any path. *)
Theorem not_an_image (b : Home.browser) (file : Home.File) (s : Home.state) :
  String.prefix "image/" (Home.type file) = false ->
  Home.processFile b file s
  = ([], Home.setError (Some Home.not_an_image_message) s).
Proof. intros Htype. unfold Home.processFile. now rewrite Htype. Qed.

Lemma not_an_image_witness :
  String.prefix "image/" (Home.type Home.pdf_file) = false /\
  Home.processFile Home.sample_browser Home.pdf_file Home.initial_state
  = ([], Home.setError (Some Home.not_an_image_message) Home.initial_state).
Proof.
  split; [reflexivity |].
  exact (not_an_image Home.sample_browser Home.pdf_file Home.initial_state
           eq_refl).
Defined.

(** An image file goes through the four steps of [compressImage]. *)
Example image_file_processed :
  map (fun e => match e with
                | Home.ReadAsDataURL _ => "read"
                | Home.Decode _ => "decode"
                | Home.DrawImage _ _ _ => "draw"
                | Home.ToDataURL c _ _ =>
                    if (Home.width c =? 1024) && (Home.height c =? 768)
                    then "encode 1024x768" else "encode"
                | Home.ConsoleError _ _ => "error"
                end)
      (fst (Home.processFile Home.sample_browser
              {| Home.type := "image/png"; Home.contents := "iVBORw0KGgo=" |}
              Home.initial_state))
  = ["read"; "decode"; "draw"; "encode 1024x768"].
Proof. vm_compute. reflexivity. Qed.

(** * More properties of the route handler *)

Section RouteOutcomes.
Context {E : JsEngine}.

Lemma post_bind {A B} (m : M A) (k : A -> M B)
    (Q : list event -> result B -> Prop) :
  post m (fun t r =>
            match r with
            | inl e => Q t (inl e)
            | inr a => post (k a) (fun t' r' => Q (t ++ t')%list r')
            end) ->
  post (bind m k) Q.
Proof.
  unfold post, bind. destruct m as [t [e | a]]; cbn [fst snd]; [auto |].
  destruct (k a) as [t' r']. auto.
Qed.

Lemma post_try_catch {A} (m : M A) (hnd : js_error -> list event * A)
    (P : list event * A -> Prop) :
  post m (fun t r =>
            match r with
            | inl e => P ((t ++ fst (hnd e))%list, snd (hnd e))
            | inr a => P (t, a)
            end) ->
  P (try_catch m hnd).
Proof.
  unfold post, try_catch. destruct m as [t [e | a]]; cbn [fst snd]; [| auto].
  destruct (hnd e) as [t' a]. auto.
Qed.

Lemma post_lift {A} (r : result A) (Q : list event -> result A -> Prop) :
  Q [] r -> post (lift r) Q.
Proof. exact (fun H => H). Qed.

Lemma post_emit (ev : event) (Q : list event -> result unit -> Prop) :
  Q [ev] (inr tt) -> post (emit ev) Q.
Proof. exact (fun H => H). Qed.

Lemma post_ret {A} (a : A) (Q : list event -> result A -> Prop) :
  Q [] (inr a) -> post (ret a) Q.
Proof. exact (fun H => H). Qed.

Lemma post_await_fetch (h : host) (rq : fetch_request)
    (Q : list event -> result fetch_response -> Prop) :
  Q [Fetch rq] (fetch h rq) -> post (await_fetch h rq) Q.
Proof. exact (fun H => H). Qed.

(** A call of [NextResponse.json]: with a status written in the handler
    it returns; with a provider's status it returns or throws. *)
Ltac respond :=
  match goal with
  | |- match call_NextResponse_json ?b ?s with inl _ => _ | inr _ => _ end =>
      first
        [ change (call_NextResponse_json b s)
            with (@inr js_error NextResponse (NextResponse_json b s))
        | unfold call_NextResponse_json;
          destruct (refused_status s) eqn:? ];
      cbv beta iota
  end.

(** Every path of the handler, one goal per way it can end. *)
Ltac explore :=
  repeat
    match goal with
    | |- post (bind _ _) _ => apply post_bind
    | |- post (lift _) _ => apply post_lift; cbv beta
    | |- post (emit _) _ => apply post_emit; cbv beta
    | |- post (ret _) _ => apply post_ret; cbv beta
    | |- post (await_fetch _ _) _ => apply post_await_fetch; cbv beta
    | |- post (if negb ?b then _ else _) _ => destruct b eqn:?; cbn [negb]
    | |- _ => respond
    | |- match ?r with inl _ => _ | inr _ => _ end => destruct r eqn:?
    end.

Ltac explore_POST h req :=
  pattern (POST h req); unfold POST; apply post_try_catch; unfold POST_body;
  explore.

Lemma not_ok_status (res : fetch_response) :
  ok res = false -> res_status res < 200 \/ 299 < res_status res.
Proof.
  unfold ok. intros H. apply andb_false_iff in H.
  destruct H as [H | H]; apply Z.leb_gt in H; lia.
Qed.

Lemma POST_contract (h : host) (req : NextRequest) :
  (status (snd (POST h req)) = 200 /\
   exists answer, json_body (snd (POST h req)) = VObj [("answer", answer)]) \/
  (exists message,
     json_body (snd (POST h req)) = error_body message /\ message <> "" /\
     (status (snd (POST h req)) < 200 \/ 299 < status (snd (POST h req)))).
Proof.
  explore_POST h req.
  all: cbn [fst snd POST_catch status json_body NextResponse_json].
  all: try (left; split; [reflexivity | eexists; reflexivity]).
  all: right; eexists; split; [reflexivity |]; split; [discriminate |].
  all: try (right; lia); try (left; lia).
  all: now apply not_ok_status.
Qed.

(** X1: the response contract. Every run of the handler ends in one of two
    shapes: status 200 with an [answer], or an [error] with a non-empty
    message and a status outside 200 to 299. A client that looks at
    [response.ok] never takes an error for an answer. *)
Theorem response_contract (h : host) (req : NextRequest) :
  (status (snd (POST h req)) = 200 /\
   exists answer, json_body (snd (POST h req)) = VObj [("answer", answer)]) \/
  (exists message,
     json_body (snd (POST h req)) = error_body message /\ message <> "" /\
     (status (snd (POST h req)) < 200 \/ 299 < status (snd (POST h req)))).
Proof.
  explore_POST h req.
  all: cbn [fst snd POST_catch status json_body NextResponse_json].
  all: try (left; split; [reflexivity | eexists; reflexivity]).
  all: right; eexists; split; [reflexivity |]; split; [discriminate |].
  all: try (right; lia); try (left; lia).
  all: now apply not_ok_status.
Qed.

(** X2: the outbound calls. A run makes no call, or the OCR call alone, or
    the OCR call followed by the workflow call, never more and never in
    another order; and the workflow call is only made after the OCR call
    was answered with success and a text was detected, which is the text it
    carries. *)
Theorem outbound_calls (h : host) (req : NextRequest) :
  fetches (fst (POST h req)) = [] \/
  (exists base64Data,
     fetches (fst (POST h req))
     = [vision_request (of_option_string (GOOGLE_VISION_API_KEY (env h)))
          base64Data]) \/
  (exists base64Data visionRes ocrText prompt,
     fetch h (vision_request
                (of_option_string (GOOGLE_VISION_API_KEY (env h))) base64Data)
     = inr visionRes /\
     ocr_succeeds visionRes ocrText /\
     fetches (fst (POST h req))
     = [vision_request (of_option_string (GOOGLE_VISION_API_KEY (env h)))
          base64Data;
        workflow_request (difyApiUrl h)
          (of_option_string (DIFY_API_KEY (env h))) ocrText prompt]).
Proof.
  explore_POST h req.
  all: cbn [fst snd POST_catch app fetches flat_map].
  all: try (left; reflexivity).
  all: try (right; left; eexists; reflexivity).
  all: right; right; do 4 eexists.
  all: (split; [eassumption |]; split; [| reflexivity]).
  all: do 2 eexists; repeat (split; [eassumption |]); assumption.
Qed.

(** The same walk along one path, chosen by the hypotheses at hand. *)
Ltac drive :=
  repeat
    match goal with
    | |- post (bind _ _) _ => apply post_bind
    | |- post (lift _) _ => apply post_lift; cbv beta
    | |- post (emit _) _ => apply post_emit; cbv beta
    | |- post (ret _) _ => apply post_ret; cbv beta
    | |- post (await_fetch _ _) _ => apply post_await_fetch; cbv beta
    | H : ?b = _ |- post (if negb ?b then _ else _) _ => rewrite H; cbn [negb]
    | |- _ => respond
    | H : ?r = _ |- match ?r with inl _ => _ | inr _ => _ end => rewrite H
    end.

Ltac drive_POST h req :=
  pattern (POST h req); unfold POST; apply post_try_catch; unfold POST_body;
  drive.

(** X3: a request whose body cannot be parsed, or is the JSON value
    [null], is answered with status 500 and "Internal Server Error: ..."
    (not with the 400 of a missing image); the exception is logged and
    nothing else happens, whatever the configuration is. *)
Theorem malformed_request (h : host) (req : NextRequest) :
  (exists e, req_json req = inl e) \/ req_json req = inr VNull ->
  exists e,
    POST h req
    = ([ConsoleError [AStr "Error:"; AErr e]], internal_server_error e).
Proof.
  intros [[e Hreq] | Hreq].
  - exists e. drive_POST h req. reflexivity.
  - exists (TypeError (CannotDestructure Null "image")).
    drive_POST h req. reflexivity.
Qed.

Ltac enter_request Hbody Himage Hprompt Hconf :=
  let Hreq := fresh "Hreq" in
  let Hnn := fresh "Hnn" in
  let Hdk := fresh "Hdk" in
  let Hdne := fresh "Hdne" in
  let Hgk := fresh "Hgk" in
  let Hgne := fresh "Hgne" in
  destruct Hbody as [Hreq Hnn];
  destruct Hconf as (Hdk & Hdne & Hgk & Hgne);
  let Hd1 := fresh "Hd" in
  let Hd2 := fresh "Hd" in
  pose proof (destructure_body _ "image" Hnn) as Hd1;
  pose proof (destructure_body _ "prompt" Hnn) as Hd2;
  rewrite ?Himage in Hd1; rewrite ?Hprompt in Hd2;
  pose proof (truthy_VStr _ Hdne);
  pose proof (truthy_VStr _ Hgne);
  match goal with
  | |- context [POST ?h ?req] => pattern (POST h req)
  end;
  unfold POST; apply post_try_catch; unfold POST_body;
  rewrite Hdk, Hgk; cbn [of_option_string].

(** X4: an image that is present but is not a text (a number, [true],
    an array, an object) passes the presence and credential checks and
    then breaks the handler at [image.split]: status 500, no outbound
    call. *)
Theorem image_not_a_string (h : host) (req : NextRequest) (parsed : value)
    (difyApiKey googleApiKey : string) :
  has_body req parsed ->
  configured h difyApiKey googleApiKey ->
  truthy (opt_member parsed "image") = true ->
  is_string (opt_member parsed "image") = false ->
  POST h req
  = ((request_logs true true
        ++ [ConsoleError
              [AStr "Error:";
               AErr (TypeError (NotAFunction "image.split"))]])%list,
     internal_server_error (TypeError (NotAFunction "image.split"))).
Proof.
  intros Hbody Hconf Htruthy Hstring.
  assert (Hsplit : split_comma_1 (opt_member parsed "image")
                   = inl (TypeError (NotAFunction "image.split"))).
  { destruct (opt_member parsed "image"); try discriminate; reflexivity. }
  enter_request Hbody (eq_refl (opt_member parsed "image"))
    (eq_refl (opt_member parsed "prompt")) Hconf.
  drive. reflexivity.
Qed.

Ltac enter_ocr_request Hrequest :=
  let parsed := fresh "parsed" in
  let image := fresh "image" in
  let base64Data := fresh "base64Data" in
  let Hbody := fresh "Hbody" in
  let Himage := fresh "Himage" in
  let Hne := fresh "Hne" in
  let Hprompt := fresh "Hprompt" in
  let Hconf := fresh "Hconf" in
  let Hsplit := fresh "Hsplit" in
  destruct Hrequest as (parsed & image & base64Data & Hbody & Himage & Hne
                        & Hprompt & Hconf & Hsplit & ->);
  pose proof (truthy_VStr _ Hne);
  enter_request Hbody Himage Hprompt Hconf.

(** X5: when the exchange with the OCR provider throws (the call rejects,
    or a body cannot be read as the handler needs it), the handler
    answers with status 500 and the exception's message, logs it, and
    does not call the workflow provider. *)
Theorem ocr_exchange_failure (h : host) (req : NextRequest)
    (difyApiKey googleApiKey : string) (prompt : value) (rq : fetch_request)
    (e : js_error) :
  ocr_request h req difyApiKey googleApiKey prompt rq ->
  ocr_exchange_throws h rq e ->
  POST h req
  = ((request_logs true true
        ++ [Fetch rq; ConsoleError [AStr "Error:"; AErr e]])%list,
     internal_server_error e).
Proof.
  intros Hrequest Hthrows.
  enter_ocr_request Hrequest.
  destruct Hthrows; drive; reflexivity.
Qed.

Lemma ocr_call_request (h : host) (req : NextRequest)
    (difyApiKey googleApiKey : string) (prompt : value) (rq : fetch_request)
    (visionRes : fetch_response) :
  ocr_call h req difyApiKey googleApiKey prompt rq visionRes ->
  ocr_request h req difyApiKey googleApiKey prompt rq /\
  fetch h rq = inr visionRes.
Proof.
  intros (parsed & image & base64Data & Hbody & Himage & Hne & Hprompt
          & Hconf & Hsplit & Hrq & Hfetch).
  split; [| exact Hfetch].
  exists parsed, image, base64Data. auto 10.
Qed.

Ltac enter_workflow_request Hcall Hocr :=
  let Hrequest := fresh "Hrequest" in
  let Hfetch := fresh "Hfetch" in
  let visionData := fresh "visionData" in
  let detections := fresh "detections" in
  let Hok := fresh "Hok" in
  let Hjson := fresh "Hjson" in
  let Hdet := fresh "Hdet" in
  let Htext := fresh "Htext" in
  let Htruthy := fresh "Htruthy" in
  destruct (ocr_call_request _ _ _ _ _ _ _ Hcall) as [Hrequest Hfetch];
  destruct Hocr as (visionData & detections & Hok & Hjson & Hdet & Htext
                    & Htruthy);
  enter_ocr_request Hrequest.

(** X6: when the exchange with the workflow provider throws, the handler
    answers with status 500 and the exception's message after the two
    calls. *)
Theorem workflow_exchange_failure (h : host) (req : NextRequest)
    (difyApiKey googleApiKey : string) (prompt : value) (rq : fetch_request)
    (visionRes : fetch_response) (ocrText : value) (e : js_error) :
  ocr_call h req difyApiKey googleApiKey prompt rq visionRes ->
  ocr_succeeds visionRes ocrText ->
  workflow_exchange_throws h
    (workflow_request (difyApiUrl h) (VStr difyApiKey) ocrText prompt) e ->
  POST h req
  = ((request_logs true true
        ++ [Fetch rq;
            Fetch (workflow_request (difyApiUrl h) (VStr difyApiKey) ocrText
                     prompt);
            ConsoleError [AStr "Error:"; AErr e]])%list,
     internal_server_error e).
Proof.
  intros Hcall Hocr Hthrows.
  enter_workflow_request Hcall Hocr.
  unfold difyApiUrl in Hthrows.
  destruct Hthrows; drive; reflexivity.
Qed.

(** The two calls of a run in which text was detected. *)
Lemma workflow_call_made (h : host) (req : NextRequest)
    (difyApiKey googleApiKey : string) (prompt : value) (rq : fetch_request)
    (visionRes : fetch_response) (ocrText : value) :
  ocr_call h req difyApiKey googleApiKey prompt rq visionRes ->
  ocr_succeeds visionRes ocrText ->
  fetches (fst (POST h req))
  = [rq; workflow_request (difyApiUrl h) (VStr difyApiKey) ocrText prompt].
Proof.
  intros Hcall Hocr.
  enter_workflow_request Hcall Hocr. drive. explore.
  all: reflexivity.
Qed.

(** X7: the workflow call, once text was detected. It is the second
    outbound call, a POST to the configured base URL followed by
    "/workflows/run", or to "https://api.dify.ai/v1/workflows/run" when
    the base URL is unset or empty, and it carries the workflow key as a
    bearer token. *)
Theorem workflow_endpoint (h : host) (req : NextRequest)
    (difyApiKey googleApiKey : string) (prompt : value) (rq : fetch_request)
    (visionRes : fetch_response) (ocrText : value) :
  ocr_call h req difyApiKey googleApiKey prompt rq visionRes ->
  ocr_succeeds visionRes ocrText ->
  exists rq',
    fetches (fst (POST h req)) = [rq; rq'] /\
    method rq' = "POST" /\
    headers rq' = [("Authorization", "Bearer " ++ difyApiKey);
                   ("Content-Type", "application/json")] /\
    (forall base, DIFY_API_URL (env h) = Some base -> base <> "" ->
                  url rq' = base ++ "/workflows/run") /\
    (missing (DIFY_API_URL (env h)) ->
     url rq' = "https://api.dify.ai/v1/workflows/run").
Proof.
  intros Hcall Hocr.
  exists (workflow_request (difyApiUrl h) (VStr difyApiKey) ocrText prompt).
  split; [| split; [reflexivity | split; [reflexivity | split]]].
  - now apply (workflow_call_made h req difyApiKey googleApiKey prompt rq
                 visionRes ocrText).
  - intros base Hbase Hne. unfold difyApiUrl. rewrite Hbase.
    cbn [of_option_string]. unfold js_or. now rewrite (truthy_VStr _ Hne).
  - intros [Hnone | Hempty]; unfold difyApiUrl;
      [rewrite Hnone | rewrite Hempty]; reflexivity.
Qed.

Lemma serialize_not_empty (gap indent : string) (v : value) :
  is_number v = false -> v <> VUndefined ->
  exists s, serialize gap indent v = Some s /\ s <> "".
Proof.
  intros Hnum Hdef. destruct v as [| | [|] | n | s | elems | props].
  - contradiction.
  - eexists; split; [reflexivity | discriminate].
  - eexists; split; [reflexivity | discriminate].
  - eexists; split; [reflexivity | discriminate].
  - discriminate Hnum.
  - eexists; split; [reflexivity | discriminate].
  - cbn [serialize]. eexists. split; [reflexivity |].
    apply wrap_not_empty. discriminate.
  - apply stringify_object.
Qed.

(** X8: when both calls succeed and the workflow outputs are not a bare
    number, the response carries a truthy answer unless the workflow data
    has no [outputs] at all, and then it carries no answer: status 200
    with an [answer] that is [undefined]. *)
Theorem answer_defined (h : host) (req : NextRequest)
    (difyApiKey googleApiKey : string) (prompt : value) (rq : fetch_request)
    (visionRes : fetch_response) (ocrText : value) (rq' : fetch_request)
    (workflowRes : fetch_response) (workflowData outputs : value) :
  ocr_call h req difyApiKey googleApiKey prompt rq visionRes ->
  ocr_succeeds visionRes ocrText ->
  workflow_call h difyApiKey ocrText prompt rq' workflowRes ->
  ok workflowRes = true ->
  res_json workflowRes = inr workflowData ->
  outputs_of workflowData = inr outputs ->
  is_number outputs = false ->
  exists answer,
    json_body (snd (POST h req)) = VObj [("answer", answer)] /\
    (outputs = VUndefined -> answer = VUndefined) /\
    (outputs <> VUndefined -> truthy answer = true).
Proof.
  intros Hcall Hocr Hwf Hok' Hjson' Hout Hnum.
  rewrite (POST_success h req difyApiKey googleApiKey prompt rq visionRes
             ocrText rq' workflowRes workflowData outputs) by assumption.
  eexists. split; [reflexivity |]. split.
  - intros ->. reflexivity.
  - intros Hdef. unfold js_or.
    destruct (truthy (opt_member outputs "result")) eqn:Hres; [exact Hres |].
    destruct (serialize_not_empty "  " "" outputs Hnum Hdef) as (s & Hs & Hne).
    unfold JSON_stringify_2. rewrite Hs. now apply truthy_VStr.
Qed.

Lemma analyze_prompt_not_empty : analyze_prompt <> "".
Proof. discriminate. Qed.

(** X20: the page and the handler together. For the request the page
    sends, the workflow call carries the page's own fixed prompt as
    [user_prompt]: with the page as the client, the handler's default
    instruction is never used. *)
Theorem page_prompt_reaches_workflow (h : host) (image : string)
    (difyApiKey googleApiKey : string) (prompt : value) (rq : fetch_request)
    (visionRes : fetch_response) (ocrText : value) :
  ocr_call h (page_request image) difyApiKey googleApiKey prompt rq visionRes ->
  ocr_succeeds visionRes ocrText ->
  exists rq',
    fetches (fst (POST h (page_request image))) = [rq; rq'] /\
    body rq' = workflow_body ocrText (VStr analyze_prompt).
Proof.
  intros Hcall Hocr.
  exists (workflow_request (difyApiUrl h) (VStr difyApiKey) ocrText prompt).
  split.
  - now apply (workflow_call_made h (page_request image) difyApiKey
                 googleApiKey prompt rq visionRes ocrText).
  - destruct Hcall as (parsed & _ & _ & [Hreq _] & _ & _ & Hprompt & _).
    injection Hreq as <-. subst prompt. reflexivity.
Qed.

End RouteOutcomes.

(** * More properties of the image preparer *)

Section Scaling.
Local Open Scope Q_scope.
Import Binary64.

(** The scaled dimension against the exact proportional value
    [1024 * s / L]: never above it, and less than one below it. *)
Lemma scaled_dimension_floor (default s L : Z) :
  (0 <= s <= L)%Z -> (1024 < L < 2 ^ 32)%Z ->
  let m := set_canvas_dimension default
             (mul (inject_Z s) (div 1024 (inject_Z L))) in
  (0 <= m)%Z /\ (m * L <= 1024 * s)%Z /\ (1024 * s <= (m + 1) * L)%Z.
Proof.
  intros Hs HL.
  assert (HW : 0 < inject_Z L).
  { change 0 with (inject_Z 0). rewrite <- Zlt_Qlt. lia. }
  assert (HW32 : inject_Z L <= 4294967296).
  { change 4294967296 with (inject_Z 4294967296). rewrite <- Zle_Qle. lia. }
  assert (HSW : inject_Z s <= inject_Z L) by (rewrite <- Zle_Qle; lia).
  assert (Ea : 1024 / inject_Z L * inject_Z L == 1024).
  { field. intros H. rewrite H in HW. discriminate HW. }
  assert (Ha : 1 # 4194304 <= 1024 / inject_Z L).
  { apply Qle_shift_div_l; [exact HW |]. lra. }
  unfold div, mul.
  destruct (round_accurate (1024 / inject_Z L)) as [Hq1 Hq2].
  { apply normal_above. eapply Qle_trans; [| exact Ha]. discriminate. }
  revert Ea Ha Hq1 Hq2.
  generalize (1024 / inject_Z L). intros a Ea Ha Hq1 Hq2.
  revert Hq1 Hq2. generalize (round a). intros q Hq1 Hq2.
  unfold unit_roundoff in *.
  assert (Hqw1 : a * (1 - (1 # 9007199254740992)) * inject_Z L
                 <= q * inject_Z L)
    by (apply Qmult_le_compat_r; [exact Hq1 | lra]).
  assert (Hqw2 : q * inject_Z L
                 <= a * (1 + (1 # 9007199254740992)) * inject_Z L)
    by (apply Qmult_le_compat_r; [exact Hq2 | lra]).
  destruct (Z.eq_dec s 0) as [-> | Hs0].
  - rewrite round_zero by ring.
    change (set_canvas_dimension default 0) with 0%Z. lia.
  - assert (HS : 1 <= inject_Z s).
    { change 1 with (inject_Z 1). rewrite <- Zle_Qle. lia. }
    assert (HS32 : inject_Z s <= 4294967296) by lra.
    assert (Hq0 : 1 # 8388608 <= q) by lra.
    assert (Hp0 : 1 # 8388608 <= inject_Z s * q).
    { apply Qle_trans with (1 * q); [lra |].
      apply Qmult_le_compat_r; lra. }
    destruct (round_accurate (inject_Z s * q) (normal_above _ Hp0))
      as [Hr1 Hr2].
    unfold unit_roundoff in Hr1, Hr2.
    revert Hr1 Hr2. generalize (round (inject_Z s * q)). intros r Hr1 Hr2.
    assert (Hr0 : 0 <= r) by lra.
    pose proof (Qfloor_le r) as Hfl. pose proof (Qlt_floor r) as Hfu.
    rewrite inject_Z_plus in Hfu. change (inject_Z 1) with 1 in Hfu.
    assert (Hm0 : (0 <= Qfloor r)%Z).
    { change 0%Z with (Qfloor 0). now apply Qfloor_resp_le. }
    assert (Hsq1 : inject_Z s * (a * (1 - (1 # 9007199254740992)) * inject_Z L)
                   <= inject_Z s * (q * inject_Z L))
      by (apply Qmult_le_l; [lra | exact Hqw1]).
    assert (Hsq2 : inject_Z s * (q * inject_Z L)
                   <= inject_Z s
                      * (a * (1 + (1 # 9007199254740992)) * inject_Z L))
      by (apply Qmult_le_l; [lra | exact Hqw2]).
    assert (Esa : inject_Z s * (a * inject_Z L) == 1024 * inject_Z s)
      by (rewrite Ea; ring).
    assert (Hrw1 : inject_Z s * q * (1 - (1 # 9007199254740992)) * inject_Z L
                   <= r * inject_Z L)
      by (apply Qmult_le_compat_r; [exact Hr1 | lra]).
    assert (Hrw2 : r * inject_Z L
                   <= inject_Z s * q * (1 + (1 # 9007199254740992))
                      * inject_Z L)
      by (apply Qmult_le_compat_r; [exact Hr2 | lra]).
    assert (Hmw1 : inject_Z (Qfloor r) * inject_Z L <= r * inject_Z L)
      by (apply Qmult_le_compat_r; [exact Hfl | lra]).
    assert (Hmw2 : r * inject_Z L < (inject_Z (Qfloor r) + 1) * inject_Z L)
      by (apply Qmult_lt_compat_r; [exact HW | exact Hfu]).
    assert (Hup : inject_Z (Qfloor r * L) < inject_Z (1024 * s + 1)).
    { rewrite inject_Z_plus, !inject_Z_mult. change (inject_Z 1024) with 1024.
      change (inject_Z 1) with 1. lra. }
    assert (Hlow : inject_Z (1024 * s) < inject_Z ((Qfloor r + 1) * L + 1)).
    { rewrite !inject_Z_plus, !inject_Z_mult, inject_Z_plus.
      change (inject_Z 1024) with 1024. change (inject_Z 1) with 1. lra. }
    rewrite <- Zlt_Qlt in Hup, Hlow.
    assert (Hm1024 : (Qfloor r <= 1024)%Z) by nia.
    rewrite (set_canvas_dimension_small default r (Qfloor r) Hr0 eq_refl)
      by lia.
    lia.
Qed.

End Scaling.

Lemma canvas_size_unchanged (img_width img_height : Z) :
  0 <= img_width <= 1024 -> 0 <= img_height <= 1024 ->
  canvas_size img_width img_height = (img_width, img_height).
Proof.
  intros Hw Hh. unfold canvas_size, scaled_size.
  change MAX_WIDTH with (inject_Z 1024). change MAX_HEIGHT with (inject_Z 1024).
  rewrite !gt_inject_Z.
  destruct (Z.ltb_spec img_height img_width);
    [destruct (Z.ltb_spec 1024 img_width)
    | destruct (Z.ltb_spec 1024 img_height)]; try lia;
    now rewrite !set_canvas_dimension_inject_Z by lia.
Qed.

Lemma canvas_size_landscape (img_width img_height : Z) :
  img_height < img_width -> 1024 < img_width ->
  canvas_size img_width img_height
  = (1024,
     set_canvas_dimension 150
       (Binary64.mul (inject_Z img_height)
          (Binary64.div 1024 (inject_Z img_width)))).
Proof.
  intros Hlt Hbig. unfold canvas_size, scaled_size.
  change MAX_WIDTH with (inject_Z 1024). change MAX_HEIGHT with (inject_Z 1024).
  rewrite !gt_inject_Z.
  destruct (Z.ltb_spec img_height img_width); [| lia].
  destruct (Z.ltb_spec 1024 img_width); [| lia].
  now rewrite (set_canvas_dimension_inject_Z 300 1024) by lia.
Qed.

Lemma canvas_size_portrait (img_width img_height : Z) :
  img_width <= img_height -> 1024 < img_height ->
  canvas_size img_width img_height
  = (set_canvas_dimension 300
       (Binary64.mul (inject_Z img_width)
          (Binary64.div 1024 (inject_Z img_height))),
     1024).
Proof.
  intros Hle Hbig. unfold canvas_size, scaled_size.
  change MAX_WIDTH with (inject_Z 1024). change MAX_HEIGHT with (inject_Z 1024).
  rewrite !gt_inject_Z.
  destruct (Z.ltb_spec img_height img_width); [lia |].
  destruct (Z.ltb_spec 1024 img_height); [| lia].
  now rewrite (set_canvas_dimension_inject_Z 150 1024) by lia.
Qed.

(** X9: the scaled side is the proportional value rounded down, never up:
    for a landscape image wider than 1024 the canvas is 1024 wide and its
    height [c] satisfies [c * width <= 1024 * height <= (c + 1) * width]
    (so [c] is the floor of [1024 * height / width], or one below it when
    that quotient is whole); likewise for the width of a portrait or
    square image higher than 1024. *)
Theorem canvas_size_rounds_down (img_width img_height : Z) :
  0 <= img_width < 2 ^ 32 ->
  0 <= img_height < 2 ^ 32 ->
  (img_height < img_width -> 1024 < img_width ->
   fst (canvas_size img_width img_height) = 1024 /\
   0 <= snd (canvas_size img_width img_height) /\
   snd (canvas_size img_width img_height) * img_width <= 1024 * img_height /\
   1024 * img_height
     <= (snd (canvas_size img_width img_height) + 1) * img_width) /\
  (img_width <= img_height -> 1024 < img_height ->
   snd (canvas_size img_width img_height) = 1024 /\
   0 <= fst (canvas_size img_width img_height) /\
   fst (canvas_size img_width img_height) * img_height <= 1024 * img_width /\
   1024 * img_width
     <= (fst (canvas_size img_width img_height) + 1) * img_height).
Proof.
  intros Hw Hh. split; intros Hshape Hbig.
  - rewrite canvas_size_landscape by assumption. cbn [fst snd].
    split; [reflexivity |].
    apply (scaled_dimension_floor 150 img_height img_width); lia.
  - rewrite canvas_size_portrait by assumption. cbn [fst snd].
    split; [reflexivity |].
    apply (scaled_dimension_floor 300 img_width img_height); lia.
Qed.

Lemma canvas_size_within (img_width img_height : Z) :
  0 <= img_width < 2 ^ 32 ->
  0 <= img_height < 2 ^ 32 ->
  0 <= fst (canvas_size img_width img_height) <= Z.min img_width 1024 /\
  0 <= snd (canvas_size img_width img_height) <= Z.min img_height 1024.
Proof.
  intros Hw Hh.
  destruct (Z.ltb_spec img_height img_width) as [Hlt | Hge].
  - destruct (Z.ltb_spec 1024 img_width) as [Hbig | Hsmall].
    + rewrite canvas_size_landscape by assumption. cbn [fst snd].
      destruct (scaled_dimension_floor 150 img_height img_width)
        as (H0 & Hup & _); [lia | lia |].
      split; [lia |]. split; [exact H0 |]. apply Z.min_glb; nia.
    + rewrite canvas_size_unchanged by lia. cbn [fst snd]. lia.
  - destruct (Z.ltb_spec 1024 img_height) as [Hbig | Hsmall].
    + rewrite canvas_size_portrait by assumption. cbn [fst snd].
      destruct (scaled_dimension_floor 300 img_width img_height)
        as (H0 & Hup & _); [lia | lia |].
      split; [| lia]. split; [exact H0 |]. apply Z.min_glb; nia.
    + rewrite canvas_size_unchanged by lia. cbn [fst snd]. lia.
Qed.

(** X10: the canvas is never larger than the image and never larger than
    1024 by 1024: the preparer only ever shrinks. *)
Theorem canvas_size_never_larger (img_width img_height : Z) :
  0 <= img_width < 2 ^ 32 ->
  0 <= img_height < 2 ^ 32 ->
  0 <= fst (canvas_size img_width img_height) <= Z.min img_width 1024 /\
  0 <= snd (canvas_size img_width img_height) <= Z.min img_height 1024.
Proof.
  intros Hw Hh.
  destruct (Z.ltb_spec img_height img_width) as [Hlt | Hge].
  - destruct (Z.ltb_spec 1024 img_width) as [Hbig | Hsmall].
    + rewrite canvas_size_landscape by assumption. cbn [fst snd].
      destruct (scaled_dimension_floor 150 img_height img_width)
        as (H0 & Hup & _); [lia | lia |].
      split; [lia |]. split; [exact H0 |]. apply Z.min_glb; nia.
    + rewrite canvas_size_unchanged by lia. cbn [fst snd]. lia.
  - destruct (Z.ltb_spec 1024 img_height) as [Hbig | Hsmall].
    + rewrite canvas_size_portrait by assumption. cbn [fst snd].
      destruct (scaled_dimension_floor 300 img_width img_height)
        as (H0 & Hup & _); [lia | lia |].
      split; [| lia]. split; [exact H0 |]. apply Z.min_glb; nia.
    + rewrite canvas_size_unchanged by lia. cbn [fst snd]. lia.
Qed.

(** X11: an image more than 1024 times as long as it is wide loses its
    short side: the canvas has a dimension of zero pixels. When the long
    side is less than 1024 times the short side, both canvas dimensions
    are positive. *)
Theorem canvas_size_degenerate (img_width img_height : Z) :
  0 < img_width < 2 ^ 32 ->
  0 < img_height < 2 ^ 32 ->
  (1024 * img_height < img_width ->
   canvas_size img_width img_height = (1024, 0)) /\
  (1024 * img_width < img_height ->
   canvas_size img_width img_height = (0, 1024)) /\
  (img_width < 1024 * img_height -> img_height < 1024 * img_width ->
   0 < fst (canvas_size img_width img_height) /\
   0 < snd (canvas_size img_width img_height)).
Proof.
  intros Hw Hh. split; [| split].
  - intros Hlong. rewrite canvas_size_landscape by lia. f_equal.
    destruct (scaled_dimension_floor 150 img_height img_width)
      as (H0 & Hup & _); [lia | lia |]. nia.
  - intros Hlong. rewrite canvas_size_portrait by lia. f_equal.
    destruct (scaled_dimension_floor 300 img_width img_height)
      as (H0 & Hup & _); [lia | lia |]. nia.
  - intros H1 H2.
    destruct (Z.ltb_spec img_height img_width) as [Hlt | Hge].
    + destruct (Z.ltb_spec 1024 img_width) as [Hbig | Hsmall].
      * rewrite canvas_size_landscape by assumption. cbn [fst snd].
        destruct (scaled_dimension_floor 150 img_height img_width)
          as (H0 & _ & Hlow); [lia | lia |].
        split; [lia | nia].
      * rewrite canvas_size_unchanged by lia. cbn [fst snd]. lia.
    + destruct (Z.ltb_spec 1024 img_height) as [Hbig | Hsmall].
      * rewrite canvas_size_portrait by assumption. cbn [fst snd].
        destruct (scaled_dimension_floor 300 img_width img_height)
          as (H0 & _ & Hlow); [lia | lia |].
        split; [nia | lia].
      * rewrite canvas_size_unchanged by lia. cbn [fst snd]. lia.
Qed.

(** X12: preparing a prepared image changes nothing: the canvas size of
    an image that already has a canvas size is that size. *)
Theorem canvas_size_idempotent (img_width img_height : Z) :
  0 <= img_width < 2 ^ 32 ->
  0 <= img_height < 2 ^ 32 ->
  canvas_size (fst (canvas_size img_width img_height))
              (snd (canvas_size img_width img_height))
  = canvas_size img_width img_height.
Proof.
  intros Hw Hh.
  destruct (canvas_size_within img_width img_height Hw Hh) as [H1 H2].
  rewrite canvas_size_unchanged by lia.
  now destruct (canvas_size img_width img_height).
Qed.

(** * More properties of the client page *)

(** X13: what an accepted upload stores. When the file is an image that
    the browser reads and decodes, the page's image becomes the JPEG data
    URL, at quality 0.7, of a canvas that is at most 1024 by 1024 and no
    larger than the decoded image; the error is cleared and the previous
    result is emptied. *)
Theorem processFile_stores_jpeg (b : Home.browser) (file : Home.File)
    (s : Home.state) (src : string) (img_width img_height : Z) :
  String.prefix "image/" (Home.type file) = true ->
  Home.readAsDataURL b file = Some src ->
  Home.decode b src = Some (img_width, img_height) ->
  0 <= img_width < 2 ^ 32 ->
  0 <= img_height < 2 ^ 32 ->
  exists c,
    Home.image (snd (Home.processFile b file s))
    = Some (Home.toDataURL b c "image/jpeg" (7 # 10)) /\
    last (fst (Home.processFile b file s)) (Home.Decode src)
    = Home.ToDataURL c "image/jpeg" (7 # 10) /\
    0 <= Home.width c <= Z.min img_width 1024 /\
    0 <= Home.height c <= Z.min img_height 1024 /\
    Home.error (snd (Home.processFile b file s)) = None /\
    Home.result (snd (Home.processFile b file s)) = "".
Proof.
  intros Htype Hread Hdecode Hw Hh.
  pose proof (canvas_size_within img_width img_height Hw Hh) as Hsize.
  unfold canvas_size in Hsize.
  unfold Home.processFile, Home.compressImage.
  rewrite Htype, Hread, Hdecode. cbn [negb].
  destruct (scaled_size img_width img_height) as [width height].
  cbn [fst snd] in Hsize. eexists.
  split; [reflexivity |].
  split; [destruct (Home.getContext b _ _); reflexivity |].
  cbn [Home.width Home.height]. tauto.
Qed.

(** X14: what a failed upload leaves. When an image file cannot be read,
    or cannot be decoded, the page shows the load failure message and
    keeps its image, its result and its other state; nothing is drawn or
    encoded. *)
Theorem processFile_load_failure (b : Home.browser) (file : Home.File)
    (s : Home.state) :
  String.prefix "image/" (Home.type file) = true ->
  Home.readAsDataURL b file = None \/
  (exists src, Home.readAsDataURL b file = Some src /\
               Home.decode b src = None) ->
  snd (Home.processFile b file s)
  = Home.setError (Some Home.load_failed_message) s /\
  forall e, In e (fst (Home.processFile b file s)) ->
            match e with
            | Home.DrawImage _ _ _ | Home.ToDataURL _ _ _ => False
            | _ => True
            end.
Proof.
  intros Htype [Hread | (src & Hread & Hdecode)];
    unfold Home.processFile, Home.compressImage;
    rewrite Htype, Hread; rewrite ?Hdecode; cbn [negb fst snd app];
    (split; [reflexivity |]);
    intros e He; cbn [In] in He; intuition (subst; exact I).
Qed.

Section AnalyzeProperties.
Context {E : JsEngine}.

Lemma shown_message_not_empty (err : js_error) : shown_message err <> "".
Proof.
  unfold shown_message.
  destruct (String.eqb_spec (error_message err) "");
    [discriminate | assumption].
Qed.

Lemma handleAnalyze_outcome (p : page_host) (image : string)
    (outcome : result value) :
  image <> "" ->
  snd (handleAnalyze_try p image) = outcome ->
  handleAnalyze p (Some image)
  = ([SetLoading true; SetError None; SetResult (VStr "");
      FetchAnalyze (analyze_request image)]
       ++ match outcome with
          | inr shown => [SetResult shown]
          | inl err =>
              [LogAnalysisError err; SetError (Some (shown_message err))]
          end
       ++ [SetLoading false])%list.
Proof.
  intros Hne <-. unfold handleAnalyze.
  destruct (String.eqb_spec image ""); [contradiction |].
  unfold handleAnalyze_try. cbn [snd]. reflexivity.
Qed.

(** X15: every analysis is bracketed. Without an image the button does
    nothing. With one, the page sets the loading flag, clears the error
    and the result, sends exactly one request, then either sets a result
    or logs and sets a non-empty error message, never both, and in every
    case ends by clearing the loading flag. *)
Theorem analysis_bracket (p : page_host) :
  handleAnalyze p None = [] /\
  handleAnalyze p (Some "") = [] /\
  forall image, image <> "" ->
    exists outcome,
      handleAnalyze p (Some image)
      = ([SetLoading true; SetError None; SetResult (VStr "");
          FetchAnalyze (analyze_request image)]
           ++ outcome ++ [SetLoading false])%list /\
      ((exists shown, outcome = [SetResult shown]) \/
       (exists err message,
          outcome = [LogAnalysisError err; SetError (Some message)] /\
          message <> "")).
Proof.
  split; [reflexivity |]. split; [reflexivity |].
  intros image Hne.
  rewrite (handleAnalyze_outcome p image _ Hne eq_refl).
  destruct (snd (handleAnalyze_try p image)) as [err | shown].
  - exists [LogAnalysisError err; SetError (Some (shown_message err))].
    split; [reflexivity |]. right.
    exists err, (shown_message err).
    split; [reflexivity | apply shown_message_not_empty].
  - exists [SetResult shown]. split; [reflexivity |]. left. now exists shown.
Qed.

(** X16: a response that does not announce JSON is an error, whatever its
    status: when the content type is missing, empty or does not contain
    "application/json", the page never reads the body as JSON; it shows
    "Server returned non-JSON response: ", the first 100 code units of the
    body text and "...", even for a status 200. *)
Theorem non_json_response (p : page_host) (image : string)
    (res : analyze_response) (text : string) :
  image <> "" ->
  fetch_analyze p (analyze_request image) = inr res ->
  is_json (content_type res) = false ->
  res_text (response res) = inr text ->
  handleAnalyze p (Some image)
  = [SetLoading true; SetError None; SetResult (VStr "");
     FetchAnalyze (analyze_request image);
     LogAnalysisError
       (new_Error ("Server returned non-JSON response: "
                     ++ slice_0_100 p text ++ "..."));
     SetError (Some ("Server returned non-JSON response: "
                       ++ slice_0_100 p text ++ "..."));
     SetLoading false].
Proof.
  intros Hne Hfetch Hjson Htext.
  rewrite (handleAnalyze_outcome p image
             (inl (new_Error ("Server returned non-JSON response: "
                                ++ slice_0_100 p text ++ "..."))) Hne).
  - reflexivity.
  - unfold handleAnalyze_try, response_data. cbn [snd].
    now rewrite Hfetch, Hjson, Htext.
Qed.

Lemma handleAnalyze_error_data (p : page_host) (image : string)
    (res : analyze_response) (data : value) :
  image <> "" ->
  fetch_analyze p (analyze_request image) = inr res ->
  is_json (content_type res) = true ->
  res_json (response res) = inr data ->
  ok (response res) = false ->
  is_nullish data = false ->
  snd (handleAnalyze_try p image)
  = inl (new_Error (to_string (js_or (opt_member data "error")
                                 (VStr analysis_failed_message)))).
Proof.
  intros Hne Hfetch Hjson Hdata Hnok Hnn.
  assert (Hmember : member data "error" = inr (opt_member data "error")).
  { destruct data; try discriminate Hnn; reflexivity. }
  unfold handleAnalyze_try, response_data. cbn [snd].
  now rewrite Hfetch, Hjson, Hdata, Hnok, Hmember.
Qed.

Lemma handleAnalyze_message (p : page_host) (image message : string) :
  image <> "" -> message <> "" ->
  snd (handleAnalyze_try p image) = inl (new_Error message) ->
  handleAnalyze p (Some image)
  = [SetLoading true; SetError None; SetResult (VStr "");
     FetchAnalyze (analyze_request image);
     LogAnalysisError (new_Error message);
     SetError (Some message);
     SetLoading false].
Proof.
  intros Hne Hmessage Htry.
  rewrite (handleAnalyze_outcome p image _ Hne Htry).
  unfold shown_message, new_Error. cbn [error_message app].
  destruct (String.eqb_spec message ""); [contradiction | reflexivity].
Qed.

Lemma handleAnalyze_answer_data (p : page_host) (image : string)
    (res : analyze_response) (data : value) :
  image <> "" ->
  fetch_analyze p (analyze_request image) = inr res ->
  is_json (content_type res) = true ->
  res_json (response res) = inr data ->
  ok (response res) = true ->
  is_nullish data = false ->
  handleAnalyze p (Some image)
  = [SetLoading true; SetError None; SetResult (VStr "");
     FetchAnalyze (analyze_request image);
     SetResult (js_or (opt_member data "answer")
                  (of_option_string (JSON_stringify_2 data)));
     SetLoading false].
Proof.
  intros Hne Hfetch Hjson Hdata Hok Hnn.
  assert (Hmember : member data "answer" = inr (opt_member data "answer")).
  { destruct data; try discriminate Hnn; reflexivity. }
  rewrite (handleAnalyze_outcome p image
             (inr (js_or (opt_member data "answer")
                     (of_option_string (JSON_stringify_2 data)))) Hne).
  - reflexivity.
  - unfold handleAnalyze_try, response_data. cbn [snd].
    now rewrite Hfetch, Hjson, Hdata, Hok, Hmember.
Qed.

(** X17: an error answer is shown in the server's words. For a JSON
    response with a status outside 200 to 299, the page shows the [error]
    text of the body when that is a non-empty text, and "解析に失敗しました"
    when the body has no [error]; no result is set. *)
Theorem server_error_shown (p : page_host) (image : string)
    (res : analyze_response) (data : value) :
  image <> "" ->
  fetch_analyze p (analyze_request image) = inr res ->
  is_json (content_type res) = true ->
  res_json (response res) = inr data ->
  ok (response res) = false ->
  is_nullish data = false ->
  (forall message, opt_member data "error" = VStr message -> message <> "" ->
     handleAnalyze p (Some image)
     = [SetLoading true; SetError None; SetResult (VStr "");
        FetchAnalyze (analyze_request image);
        LogAnalysisError (new_Error message);
        SetError (Some message);
        SetLoading false]) /\
  (opt_member data "error" = VUndefined ->
     handleAnalyze p (Some image)
     = [SetLoading true; SetError None; SetResult (VStr "");
        FetchAnalyze (analyze_request image);
        LogAnalysisError (new_Error analysis_failed_message);
        SetError (Some analysis_failed_message);
        SetLoading false]).
Proof.
  intros Hne Hfetch Hjson Hdata Hnok Hnn.
  pose proof (handleAnalyze_error_data p image res data Hne Hfetch Hjson
                Hdata Hnok Hnn) as Htry.
  split.
  - intros message Herror Hmessage.
    apply handleAnalyze_message; try assumption.
    rewrite Htry, Herror. unfold js_or. now rewrite (truthy_VStr _ Hmessage).
  - intros Herror.
    apply handleAnalyze_message; try assumption; [discriminate |].
    now rewrite Htry, Herror.
Qed.

(** X18: a success answer. For a JSON response with a status in 200 to
    299, the page sets as result the [answer] of the body when it is
    truthy, and otherwise the whole body serialized with an indentation of
    two spaces; no error is set. *)
Theorem answer_shown (p : page_host) (image : string)
    (res : analyze_response) (data : value) :
  image <> "" ->
  fetch_analyze p (analyze_request image) = inr res ->
  is_json (content_type res) = true ->
  res_json (response res) = inr data ->
  ok (response res) = true ->
  is_nullish data = false ->
  handleAnalyze p (Some image)
  = [SetLoading true; SetError None; SetResult (VStr "");
     FetchAnalyze (analyze_request image);
     SetResult (if truthy (opt_member data "answer")
                then opt_member data "answer"
                else of_option_string (JSON_stringify_2 data));
     SetLoading false].
Proof.
  intros Hne Hfetch Hjson Hdata Hok Hnn.
  now rewrite (handleAnalyze_answer_data p image res data).
Qed.

Lemma ok_status (res : fetch_response) (s : Z) :
  res_status res = s -> ok res = (200 <=? s) && (s <=? 299).
Proof. intros <-. reflexivity. Qed.

(** X19: the page and the handler together. When the page's call is
    answered with the response of the handler to the page's request, an
    error of the handler is shown to the user in the handler's words and no
    result is set, and a truthy answer of the handler becomes the result
    and no error is set. *)
Theorem handler_outcome_reaches_user (h : host) (p : page_host)
    (image : string) (res : analyze_response) :
  image <> "" ->
  fetch_analyze p (analyze_request image) = inr res ->
  delivers res (snd (POST h (page_request image))) ->
  (forall message,
     json_body (snd (POST h (page_request image))) = error_body message ->
     handleAnalyze p (Some image)
     = [SetLoading true; SetError None; SetResult (VStr "");
        FetchAnalyze (analyze_request image);
        LogAnalysisError (new_Error message);
        SetError (Some message);
        SetLoading false]) /\
  (forall answer,
     json_body (snd (POST h (page_request image)))
     = VObj [("answer", answer)] ->
     truthy answer = true ->
     handleAnalyze p (Some image)
     = [SetLoading true; SetError None; SetResult (VStr "");
        FetchAnalyze (analyze_request image);
        SetResult answer;
        SetLoading false]).
Proof.
  intros Hne Hfetch (Hstatus & Hjson & Hdata).
  destruct (POST_contract h (page_request image))
    as [[H200 [answer' Hanswer]] | (message' & Herror & Hmessage & Hstatus')].
  - split.
    + intros message Hbody. rewrite Hanswer in Hbody. discriminate Hbody.
    + intros answer Hbody Htruthy.
      rewrite (handleAnalyze_answer_data p image res _ Hne Hfetch Hjson Hdata).
      * rewrite Hbody. cbn [opt_member lookup String.eqb Ascii.eqb Bool.eqb].
        unfold js_or. now rewrite Htruthy.
      * rewrite (ok_status _ _ Hstatus), H200. reflexivity.
      * now rewrite Hbody.
  - split.
    + intros message Hbody.
      assert (message = message') as ->.
      { rewrite Herror in Hbody. now injection Hbody. }
      apply handleAnalyze_message; try assumption.
      rewrite (handleAnalyze_error_data p image res _ Hne Hfetch Hjson Hdata).
      * rewrite Herror.
        cbn [error_body opt_member lookup String.eqb Ascii.eqb Bool.eqb].
        unfold js_or. now rewrite (truthy_VStr _ Hmessage).
      * rewrite (ok_status _ _ Hstatus).
        destruct Hstatus' as [Hlow | Hhigh].
        -- apply andb_false_iff. left. now apply Z.leb_gt.
        -- apply andb_false_iff. right. now apply Z.leb_gt.
      * now rewrite Herror.
    + intros answer Hbody. rewrite Herror in Hbody. discriminate Hbody.
Qed.

End AnalyzeProperties.

(** * The added properties on examples *)

Lemma malformed_request_witness :
  ((exists e, req_json unparsable_request = inl e) \/
   req_json unparsable_request = inr VNull) /\
  exists e,
    POST host_echo unparsable_request
    = ([ConsoleError [AStr "Error:"; AErr e]], internal_server_error e).
Proof.
  assert (H : (exists e, req_json unparsable_request = inl e) \/
              req_json unparsable_request = inr VNull)
    by (left; eexists; reflexivity).
  split; [exact H |].
  exact (malformed_request host_echo unparsable_request H).
Defined.

(** The body [null] is answered with 500, not with 400. *)
Example null_body_status :
  status (snd (POST host_echo (request_of VNull))) = 500.
Proof. reflexivity. Qed.

Lemma image_not_a_string_witness :
  has_body (request_of body_with_number_image) body_with_number_image /\
  configured host_echo "dify-key" "google-key" /\
  truthy (opt_member body_with_number_image "image") = true /\
  is_string (opt_member body_with_number_image "image") = false /\
  POST host_echo (request_of body_with_number_image)
  = ((request_logs true true
        ++ [ConsoleError
              [AStr "Error:";
               AErr (TypeError (NotAFunction "image.split"))]])%list,
     internal_server_error (TypeError (NotAFunction "image.split"))).
Proof.
  assert (Hbody : has_body (request_of body_with_number_image)
                    body_with_number_image) by (split; reflexivity).
  split; [exact Hbody |]. split; [apply sample_configured |].
  split; [reflexivity |]. split; [reflexivity |].
  exact (image_not_a_string host_echo _ body_with_number_image _ _ Hbody
           (sample_configured _ _) eq_refl eq_refl).
Defined.

Lemma offline_ocr_request :
  ocr_request host_offline request_with_image "dify-key" "google-key"
    VUndefined sample_vision_request.
Proof.
  exists body_with_image, sample_image, (VStr "AAAA").
  split; [exact request_has_body |].
  split; [reflexivity |]. split; [discriminate |].
  split; [reflexivity |].
  split; [repeat split; try reflexivity; discriminate |].
  split; reflexivity.
Qed.

Lemma ocr_exchange_failure_witness :
  ocr_request host_offline request_with_image "dify-key" "google-key"
    VUndefined sample_vision_request /\
  ocr_exchange_throws host_offline sample_vision_request
    (Rejected "fetch failed") /\
  POST host_offline request_with_image
  = ((request_logs true true
        ++ [Fetch sample_vision_request;
            ConsoleError [AStr "Error:"; AErr (Rejected "fetch failed")]])%list,
     internal_server_error (Rejected "fetch failed")).
Proof.
  assert (Hthrows : ocr_exchange_throws host_offline sample_vision_request
                      (Rejected "fetch failed"))
    by (apply ocr_fetch_rejects; reflexivity).
  split; [exact offline_ocr_request |]. split; [exact Hthrows |].
  exact (ocr_exchange_failure host_offline request_with_image _ _ _ _ _
           offline_ocr_request Hthrows).
Defined.

(** A success answer without [responses], and one whose first annotation
    is [null], break the handler in the same way. *)
Example unusable_vision_answers :
  status (snd (POST (sample_host (json_response 200 (VObj [])) unavailable)
                 request_with_image)) = 500 /\
  status (snd (POST (sample_host
                       (json_response 200
                          (VObj [("responses",
                                  VArr [VObj [("textAnnotations",
                                               VArr [VNull])]])]))
                       unavailable)
                 request_with_image)) = 500.
Proof. split; reflexivity. Qed.

Lemma workflow_down_ocr_call :
  ocr_call host_workflow_down request_with_image "dify-key" "google-key"
    VUndefined sample_vision_request (vision_found "Hello World").
Proof.
  exists body_with_image, sample_image, (VStr "AAAA").
  split; [exact request_has_body |].
  split; [reflexivity |]. split; [discriminate |].
  split; [reflexivity |].
  split; [repeat split; try reflexivity; discriminate |].
  repeat split.
Qed.

Lemma workflow_exchange_failure_witness :
  ocr_call host_workflow_down request_with_image "dify-key" "google-key"
    VUndefined sample_vision_request (vision_found "Hello World") /\
  ocr_succeeds (vision_found "Hello World") (VStr "Hello World") /\
  workflow_exchange_throws host_workflow_down
    (workflow_request (difyApiUrl host_workflow_down) (VStr "dify-key")
       (VStr "Hello World") VUndefined)
    (Rejected "fetch failed") /\
  POST host_workflow_down request_with_image
  = ((request_logs true true
        ++ [Fetch sample_vision_request;
            Fetch (workflow_request (difyApiUrl host_workflow_down)
                     (VStr "dify-key") (VStr "Hello World") VUndefined);
            ConsoleError [AStr "Error:"; AErr (Rejected "fetch failed")]])%list,
     internal_server_error (Rejected "fetch failed")).
Proof.
  assert (Hthrows :
            workflow_exchange_throws host_workflow_down
              (workflow_request (difyApiUrl host_workflow_down)
                 (VStr "dify-key") (VStr "Hello World") VUndefined)
              (Rejected "fetch failed"))
    by (apply workflow_fetch_rejects; reflexivity).
  split; [exact workflow_down_ocr_call |]. split; [exact hello_detected |].
  split; [exact Hthrows |].
  exact (workflow_exchange_failure host_workflow_down request_with_image
           _ _ _ _ _ _ _ workflow_down_ocr_call hello_detected Hthrows).
Defined.

Lemma custom_url_ocr_call :
  ocr_call (host_with_url "https://dify.example/v1") request_with_image
    "dify-key" "google-key" VUndefined sample_vision_request
    (vision_found "Hello World").
Proof.
  exists body_with_image, sample_image, (VStr "AAAA").
  split; [exact request_has_body |].
  split; [reflexivity |]. split; [discriminate |].
  split; [reflexivity |].
  split; [repeat split; try reflexivity; discriminate |].
  repeat split.
Qed.

Lemma workflow_endpoint_witness :
  ocr_call (host_with_url "https://dify.example/v1") request_with_image
    "dify-key" "google-key" VUndefined sample_vision_request
    (vision_found "Hello World") /\
  ocr_succeeds (vision_found "Hello World") (VStr "Hello World") /\
  exists rq',
    fetches (fst (POST (host_with_url "https://dify.example/v1")
                    request_with_image))
    = [sample_vision_request; rq'] /\
    method rq' = "POST" /\
    headers rq' = [("Authorization", "Bearer " ++ "dify-key");
                   ("Content-Type", "application/json")] /\
    (forall base,
       DIFY_API_URL (env (host_with_url "https://dify.example/v1"))
       = Some base ->
       base <> "" -> url rq' = base ++ "/workflows/run") /\
    (missing (DIFY_API_URL (env (host_with_url "https://dify.example/v1"))) ->
     url rq' = "https://api.dify.ai/v1/workflows/run").
Proof.
  split; [exact custom_url_ocr_call |]. split; [exact hello_detected |].
  exact (workflow_endpoint (host_with_url "https://dify.example/v1")
           request_with_image _ _ _ _ _ _ custom_url_ocr_call hello_detected).
Defined.

Example custom_url_used :
  map url (fetches (fst (POST (host_with_url "https://dify.example/v1")
                           request_with_image)))
  = ["https://vision.googleapis.com/v1/images:annotate?key=google-key";
     "https://dify.example/v1/workflows/run"].
Proof. reflexivity. Qed.

Lemma answer_defined_witness :
  ocr_call host_null_outputs request_with_image "dify-key" "google-key"
    VUndefined sample_vision_request (vision_found "Hello World") /\
  ocr_succeeds (vision_found "Hello World") (VStr "Hello World") /\
  is_number VNull = false /\
  exists answer,
    json_body (snd (POST host_null_outputs request_with_image))
    = VObj [("answer", answer)] /\
    (VNull = VUndefined -> answer = VUndefined) /\
    (VNull <> VUndefined -> truthy answer = true).
Proof.
  split; [apply sample_ocr_call_with_image |]. split; [exact hello_detected |].
  split; [reflexivity |].
  exact (answer_defined host_null_outputs request_with_image _ _ _ _ _ _ _ _ _
           VNull (sample_ocr_call_with_image _ _) hello_detected
           (sample_workflow_call _ _ _ _) eq_refl eq_refl eq_refl eq_refl).
Defined.

(** Outputs that are [null] are answered with the text "null"; data
    without outputs are answered without an answer. *)
Example answers_at_the_edges :
  json_body (snd (POST host_null_outputs request_with_image))
  = VObj [("answer", VStr "null")] /\
  json_body (snd (POST (host_with_outputs VUndefined) request_with_image))
  = VObj [("answer", VUndefined)].
Proof. split; reflexivity. Qed.

Lemma canvas_size_rounds_down_witness :
  0 <= 1122 < 2 ^ 32 /\ 0 <= 561 < 2 ^ 32 /\
  (561 < 1122 -> 1024 < 1122 ->
   fst (canvas_size 1122 561) = 1024 /\
   0 <= snd (canvas_size 1122 561) /\
   snd (canvas_size 1122 561) * 1122 <= 1024 * 561 /\
   1024 * 561 <= (snd (canvas_size 1122 561) + 1) * 1122) /\
  (1122 <= 561 -> 1024 < 561 ->
   snd (canvas_size 1122 561) = 1024 /\
   0 <= fst (canvas_size 1122 561) /\
   fst (canvas_size 1122 561) * 561 <= 1024 * 1122 /\
   1024 * 1122 <= (fst (canvas_size 1122 561) + 1) * 561).
Proof.
  assert (Hw : 0 <= 1122 < 2 ^ 32) by lia.
  assert (Hh : 0 <= 561 < 2 ^ 32) by lia.
  split; [exact Hw |]. split; [exact Hh |].
  exact (canvas_size_rounds_down 1122 561 Hw Hh).
Defined.

Lemma canvas_size_never_larger_witness :
  0 <= 4032 < 2 ^ 32 /\ 0 <= 3024 < 2 ^ 32 /\
  0 <= fst (canvas_size 4032 3024) <= Z.min 4032 1024 /\
  0 <= snd (canvas_size 4032 3024) <= Z.min 3024 1024.
Proof.
  assert (Hw : 0 <= 4032 < 2 ^ 32) by lia.
  assert (Hh : 0 <= 3024 < 2 ^ 32) by lia.
  split; [exact Hw |]. split; [exact Hh |].
  exact (canvas_size_never_larger 4032 3024 Hw Hh).
Defined.

Lemma canvas_size_degenerate_witness :
  0 < 5000 < 2 ^ 32 /\ 0 < 1 < 2 ^ 32 /\
  (1024 * 1 < 5000 -> canvas_size 5000 1 = (1024, 0)) /\
  (1024 * 5000 < 1 -> canvas_size 5000 1 = (0, 1024)) /\
  (5000 < 1024 * 1 -> 1 < 1024 * 5000 ->
   0 < fst (canvas_size 5000 1) /\ 0 < snd (canvas_size 5000 1)).
Proof.
  assert (Hw : 0 < 5000 < 2 ^ 32) by lia.
  assert (Hh : 0 < 1 < 2 ^ 32) by lia.
  split; [exact Hw |]. split; [exact Hh |].
  exact (canvas_size_degenerate 5000 1 Hw Hh).
Defined.

Lemma canvas_size_idempotent_witness :
  0 <= 1429 < 2 ^ 32 /\ 0 <= 1429 < 2 ^ 32 /\
  canvas_size (fst (canvas_size 1429 1429)) (snd (canvas_size 1429 1429))
  = canvas_size 1429 1429.
Proof.
  assert (H : 0 <= 1429 < 2 ^ 32) by lia.
  split; [exact H |]. split; [exact H |].
  exact (canvas_size_idempotent 1429 1429 H H).
Defined.

Lemma processFile_stores_jpeg_witness :
  String.prefix "image/" (Home.type png_file) = true /\
  Home.decode Home.sample_browser
    ("data:" ++ Home.type png_file ++ ";base64," ++ Home.contents png_file)
  = Some (4032, 3024) /\
  exists c,
    Home.image (snd (Home.processFile Home.sample_browser png_file
                       Home.initial_state))
    = Some (Home.toDataURL Home.sample_browser c "image/jpeg" (7 # 10)) /\
    last (fst (Home.processFile Home.sample_browser png_file
                 Home.initial_state))
         (Home.Decode
            ("data:" ++ Home.type png_file ++ ";base64,"
               ++ Home.contents png_file))
    = Home.ToDataURL c "image/jpeg" (7 # 10) /\
    0 <= Home.width c <= Z.min 4032 1024 /\
    0 <= Home.height c <= Z.min 3024 1024 /\
    Home.error (snd (Home.processFile Home.sample_browser png_file
                       Home.initial_state)) = None /\
    Home.result (snd (Home.processFile Home.sample_browser png_file
                        Home.initial_state)) = "".
Proof.
  split; [reflexivity |]. split; [reflexivity |].
  refine (processFile_stores_jpeg Home.sample_browser png_file
            Home.initial_state _ 4032 3024 eq_refl eq_refl eq_refl _ _); lia.
Defined.

Lemma processFile_load_failure_witness :
  String.prefix "image/" (Home.type png_file) = true /\
  (Home.readAsDataURL browser_without_decoder png_file = None \/
   exists src, Home.readAsDataURL browser_without_decoder png_file = Some src /\
               Home.decode browser_without_decoder src = None) /\
  snd (Home.processFile browser_without_decoder png_file Home.initial_state)
  = Home.setError (Some Home.load_failed_message) Home.initial_state /\
  forall e,
    In e (fst (Home.processFile browser_without_decoder png_file
                 Home.initial_state)) ->
    match e with
    | Home.DrawImage _ _ _ | Home.ToDataURL _ _ _ => False
    | _ => True
    end.
Proof.
  assert (H : Home.readAsDataURL browser_without_decoder png_file = None \/
              exists src,
                Home.readAsDataURL browser_without_decoder png_file
                = Some src /\
                Home.decode browser_without_decoder src = None)
    by (right; eexists; split; reflexivity).
  split; [reflexivity |]. split; [exact H |].
  exact (processFile_load_failure browser_without_decoder png_file
           Home.initial_state eq_refl H).
Defined.

Lemma sample_image_not_empty : sample_image <> "".
Proof. discriminate. Qed.

Lemma non_json_response_witness :
  sample_image <> "" /\
  is_json (content_type gateway_answer) = false /\
  handleAnalyze (sample_page_host gateway_answer) (Some sample_image)
  = [SetLoading true; SetError None; SetResult (VStr "");
     FetchAnalyze (analyze_request sample_image);
     LogAnalysisError
       (new_Error ("Server returned non-JSON response: "
                     ++ slice_0_100 (sample_page_host gateway_answer)
                          "<html>Bad Gateway</html>" ++ "..."));
     SetError (Some ("Server returned non-JSON response: "
                       ++ slice_0_100 (sample_page_host gateway_answer)
                            "<html>Bad Gateway</html>" ++ "..."));
     SetLoading false].
Proof.
  split; [exact sample_image_not_empty |]. split; [reflexivity |].
  exact (non_json_response (sample_page_host gateway_answer) sample_image
           gateway_answer "<html>Bad Gateway</html>" sample_image_not_empty
           eq_refl eq_refl eq_refl).
Defined.

Lemma server_error_shown_witness :
  sample_image <> "" /\
  ok (response no_text_answer) = false /\
  (forall message,
     opt_member (error_body "No text detected in the image.") "error"
     = VStr message ->
     message <> "" ->
     handleAnalyze (sample_page_host no_text_answer) (Some sample_image)
     = [SetLoading true; SetError None; SetResult (VStr "");
        FetchAnalyze (analyze_request sample_image);
        LogAnalysisError (new_Error message);
        SetError (Some message);
        SetLoading false]) /\
  (opt_member (error_body "No text detected in the image.") "error"
   = VUndefined ->
     handleAnalyze (sample_page_host no_text_answer) (Some sample_image)
     = [SetLoading true; SetError None; SetResult (VStr "");
        FetchAnalyze (analyze_request sample_image);
        LogAnalysisError (new_Error analysis_failed_message);
        SetError (Some analysis_failed_message);
        SetLoading false]).
Proof.
  split; [exact sample_image_not_empty |]. split; [reflexivity |].
  exact (server_error_shown (sample_page_host no_text_answer) sample_image
           no_text_answer (error_body "No text detected in the image.")
           sample_image_not_empty eq_refl eq_refl eq_refl eq_refl eq_refl).
Defined.

Lemma answer_shown_witness :
  sample_image <> "" /\
  ok (response (route_answer
                  (snd (POST host_echo (page_request sample_image))))) = true /\
  handleAnalyze
    (sample_page_host
       (route_answer (snd (POST host_echo (page_request sample_image)))))
    (Some sample_image)
  = [SetLoading true; SetError None; SetResult (VStr "");
     FetchAnalyze (analyze_request sample_image);
     SetResult
       (if truthy (opt_member (VObj [("answer", VStr "Item: Value")]) "answer")
        then opt_member (VObj [("answer", VStr "Item: Value")]) "answer"
        else of_option_string
               (JSON_stringify_2 (VObj [("answer", VStr "Item: Value")])));
     SetLoading false].
Proof.
  split; [exact sample_image_not_empty |]. split; [reflexivity |].
  exact (answer_shown
           (sample_page_host
              (route_answer (snd (POST host_echo (page_request sample_image)))))
           sample_image _ (VObj [("answer", VStr "Item: Value")])
           sample_image_not_empty eq_refl eq_refl eq_refl eq_refl eq_refl).
Defined.

Lemma no_text_delivered :
  delivers no_text_answer (snd (POST host_no_text (page_request sample_image))).
Proof. repeat split. Qed.

Lemma handler_outcome_reaches_user_witness :
  sample_image <> "" /\
  delivers no_text_answer
    (snd (POST host_no_text (page_request sample_image))) /\
  handleAnalyze (sample_page_host no_text_answer) (Some sample_image)
  = [SetLoading true; SetError None; SetResult (VStr "");
     FetchAnalyze (analyze_request sample_image);
     LogAnalysisError (new_Error "No text detected in the image.");
     SetError (Some "No text detected in the image.");
     SetLoading false].
Proof.
  split; [exact sample_image_not_empty |]. split; [exact no_text_delivered |].
  exact (proj1 (handler_outcome_reaches_user host_no_text
                  (sample_page_host no_text_answer) sample_image
                  no_text_answer sample_image_not_empty eq_refl
                  no_text_delivered)
           "No text detected in the image." eq_refl).
Defined.

Lemma page_request_ocr_call :
  ocr_call host_echo (page_request sample_image) "dify-key" "google-key"
    (VStr analyze_prompt) sample_vision_request (vision_found "Hello World").
Proof.
  eexists. exists sample_image, (VStr "AAAA").
  split; [split; reflexivity |].
  split; [reflexivity |]. split; [discriminate |].
  split; [reflexivity |].
  split; [apply sample_configured |].
  repeat split.
Qed.

Lemma page_prompt_reaches_workflow_witness :
  ocr_call host_echo (page_request sample_image) "dify-key" "google-key"
    (VStr analyze_prompt) sample_vision_request (vision_found "Hello World") /\
  ocr_succeeds (vision_found "Hello World") (VStr "Hello World") /\
  exists rq',
    fetches (fst (POST host_echo (page_request sample_image)))
    = [sample_vision_request; rq'] /\
    body rq' = workflow_body (VStr "Hello World") (VStr analyze_prompt).
Proof.
  split; [exact page_request_ocr_call |]. split; [exact hello_detected |].
  exact (page_prompt_reaches_workflow host_echo sample_image _ _ _ _ _ _
           page_request_ocr_call hello_detected).
Defined.
